(** * MegazordPipelineNP: the preprocessing and orchestration engine of
      [run_pipeline.py]

    The development follows the script from the inside out:
    - [Numpy]: the few array idioms the script relies on (boolean-mask
      indexing, element-wise comparison, [np.sum] of a boolean array);
    - [Conditioning]: the signal-conditioning chain (lines 127-214) over the
      SpikeInterface calls it makes, which are an interface here;
    - [Sync]: the extraction of digital synchronisation pulses (lines 310-319);
    - [Orchestrator]: the probe loop, the sorter's failure handler and the
      session marker (lines 97-347) over a small model of the file system;
    - [Layout]: the names the script gives to probe folders and streams, and
      the path it writes to [params.py] (lines 81-82, 125, 241-242, 270). *)

From stdpp Require Import base option list gmap sets strings.
From Stdlib Require Import ZArith Lia Ascii.

Open Scope Z_scope.
Open Scope string_scope.
Open Scope list_scope.

(** ** Python: exceptions and statements that change a state *)
Module Py.

(** A path, component by component: [os.path.join] appends a component. *)
Definition path := list string.

(** [os.path.dirname] *)
Definition dirname (p : path) : path := removelast p.

(** How a path is printed. *)
Fixpoint show_path (p : path) : string :=
  match p with
  | [] => EmptyString
  | [c] => c
  | c :: p' => c +:+ "/" +:+ show_path p'
  end.

(** A raised exception: its class and [str(err)]. *)
Inductive exn := Raised (cls msg : string).

Definition str (err : exn) : string :=
  match err with Raised _ msg => msg end.

Definition FileNotFoundError (p : path) : exn :=
  Raised "FileNotFoundError" ("[Errno 2] No such file or directory: '" +:+ show_path p +:+ "'").

Definition FileExistsError (p : path) : exn :=
  Raised "FileExistsError" ("[Errno 17] File exists: '" +:+ show_path p +:+ "'").

Definition IsADirectoryError (p : path) : exn :=
  Raised "IsADirectoryError" ("[Errno 21] Is a directory: '" +:+ show_path p +:+ "'").

Definition NotADirectoryError (p : path) : exn :=
  Raised "NotADirectoryError" ("[Errno 20] Not a directory: '" +:+ show_path p +:+ "'").

(** The end of a statement: a value, or an exception on its way up. *)
Inductive result (A : Type) :=
  | Ok (a : A)
  | Raise (err : exn).
Arguments Ok {A} a.
Arguments Raise {A} err.

(** A statement over a state [St]; what it did to the state before raising
    stays done. *)
Record M (St A : Type) := Stmt { run : St → result A * St }.
Arguments Stmt {St A} _.
Arguments run {St A} _ _.

#[global] Instance M_ret {St} : MRet (M St) :=
  λ A a, Stmt (λ s, (Ok a, s)).

#[global] Instance M_bind {St} : MBind (M St) :=
  λ A B k m, Stmt (λ s, match run m s with
                         | (Ok a, s') => run (k a) s'
                         | (Raise err, s') => (Raise err, s')
                         end).

Definition raise {St A} (err : exn) : M St A := Stmt (λ s, (Raise err, s)).

Definition get {St} : M St St := Stmt (λ s, (Ok s, s)).

Definition modify {St} (f : St → St) : M St unit := Stmt (λ s, (Ok tt, f s)).

(** [try: body  except Exception as err: handler(err)] *)
Definition try_except {St A} (body : M St A) (handler : exn → M St A) : M St A :=
  Stmt (λ s, match run body s with
             | (Ok a, s') => (Ok a, s')
             | (Raise err, s') => run (handler err) s'
             end).

(** A computation that touches no state, run as a statement. *)
Definition lift {St A} (r : result A) : M St A := Stmt (λ s, (r, s)).

(** [for i, x in enumerate(l, start): body(i, x)] *)
Fixpoint for_enumerate {St A} (body : nat → A → M St unit) (start : nat) (l : list A) : M St unit :=
  match l with
  | [] => mret tt
  | x :: l' => body start x ;; for_enumerate body (S start) l'
  end.

End Py.

(** ** Numpy idioms *)
Module Numpy.

(** [np.compress(mask, a)]: the entries of [a] at which [mask] holds. *)
Fixpoint compress {A : Type} (mask : list bool) (a : list A) : list A :=
  match mask, a with
  | b :: mask', x :: a' => if b then x :: compress mask' a' else compress mask' a'
  | _, _ => []
  end.

(** [a[mask]] with a boolean [mask]: numpy raises [IndexError] when the mask
    and the array differ in length. *)
Definition getitem_mask {A : Type} (a : list A) (mask : list bool) : option (list A) :=
  if decide (length a = length mask) then Some (compress mask a) else None.

(** [arr == v], element-wise. *)
Definition eq_elementwise {A : Type} `{EqDecision A} (arr : list A) (v : A) : list bool :=
  (λ x, bool_decide (x = v)) <$> arr.

(** [m1 & m2] on boolean arrays of one shape; a shape mismatch raises
    (numpy's broadcasting of arrays of length one is left out). *)
Definition and_elementwise (m1 m2 : list bool) : option (list bool) :=
  if decide (length m1 = length m2) then Some (zip_with andb m1 m2) else None.

(** [np.sum(mask)] of a boolean array. *)
Definition sum_bool (mask : list bool) : nat :=
  length (filter (λ b, b = true) mask).

(** [np.unique(a).shape[0]]: the number of distinct values. *)
Definition n_unique (a : list Z) : nat :=
  size (list_to_set (C := gset Z) a).

End Numpy.

(** ** The signal-conditioning chain *)
Module Conditioning.
Import Numpy.

(** Channel identifiers, as SpikeInterface reports them for SpikeGLX data. *)
Definition chan_id := string.

(** The keyword arguments the script passes to [si.detect_bad_channels];
    [None] is an argument left to the library's default. *)
Record detect_kwargs := DetectKwargs {
  method : option string;
  std_mad_threshold : option Z;
  seed : option Z
}.

#[global] Instance detect_kwargs_eq_dec : EqDecision detect_kwargs.
Proof. solve_decision. Defined.

(** The SpikeInterface calls of the chain, over the library's recording
    objects [Rec] and the numbers [Num] of a JSON document.  The
    preprocessing calls return lazy views of their argument. *)
Class SpikeInterface (Rec Num : Type) := {
  (** [si.highpass_filter(rec, ftype=.., dtype=..)] *)
  highpass_filter : Rec → string → string → Rec;
  (** [si.phase_shift(rec)] *)
  phase_shift : Rec → Rec;
  (** [si.common_reference(rec)] *)
  common_reference : Rec → Rec;
  (** [si.detect_bad_channels(rec, **kwargs)]: the identifiers of the bad
      channels and one label per channel. *)
  detect_bad_channels : Rec → detect_kwargs → list chan_id * list string;
  (** [rec.get_channel_ids()] *)
  get_channel_ids : Rec → list chan_id;
  (** [si.interpolate_bad_channels(rec, bad_channel_ids)] *)
  interpolate_bad_channels : Rec → list chan_id → Rec;
  (** [rec.get_property('group')] *)
  get_property_group : Rec → list Z;
  (** [rec.split_by(property='group')]: a dict keyed by group value. *)
  split_by_group : Rec → gmap Z Rec;
  (** [si.highpass_spatial_filter(rec)] *)
  highpass_spatial_filter : Rec → Rec;
  (** [si.aggregate_channels(recs, renamed_channel_ids=ids)]; refuses
      identifiers that do not fit the channels. *)
  aggregate_channels : list Rec → list chan_id → option Rec;
  (** [si.notch_filter(rec, freq=.., q=..)] *)
  notch_filter : Rec → Num → Num → Rec
}.

(** The contents of [notch_filter.json]. *)
Record notch_config (Num : Type) := NotchConfig {
  FREQ : list Num;
  Q : list Num
}.
Arguments NotchConfig {Num} _ _.
Arguments FREQ {Num} _.
Arguments Q {Num} _.

(** A fraction of channels, [np.sum(all_channels == l) / all_channels.shape[0]],
    kept as numerator and denominator. *)
Definition fraction := (nat * nat)%type.

(** Everything one pass through lines 127-214 binds. *)
Record conditioned (Rec : Type) := Conditioned {
  rec_filtered : Rec;
  rec_shifted : Rec;
  rec_comref : Rec;
  prec_dead_ch : fraction;
  dead_channel_ids : list chan_id;
  prec_out_ch : fraction;
  out_channel_ids : list chan_id;
  prec_noise_ch : fraction;
  noisy_channel_ids : list chan_id;
  interpolated_ids : list chan_id;
  rec_interpolated : Rec;
  rec_destriped : Rec;
  rec_final : Rec
}.
Arguments Conditioned {Rec}.
Arguments rec_filtered {Rec} _.
Arguments rec_shifted {Rec} _.
Arguments rec_comref {Rec} _.
Arguments prec_dead_ch {Rec} _.
Arguments dead_channel_ids {Rec} _.
Arguments prec_out_ch {Rec} _.
Arguments out_channel_ids {Rec} _.
Arguments prec_noise_ch {Rec} _.
Arguments noisy_channel_ids {Rec} _.
Arguments interpolated_ids {Rec} _.
Arguments rec_interpolated {Rec} _.
Arguments rec_destriped {Rec} _.
Arguments rec_final {Rec} _.

Section Chain.
Context {Rec Num : Type} `{SI : SpikeInterface Rec Num}.

(** The keyword arguments of the first call (line 142): only the seed. *)
Definition dead_pass_kwargs : detect_kwargs :=
  DetectKwargs None None (Some 42).

(** The keyword arguments of the second call (lines 151-152). *)
Definition noise_pass_kwargs : detect_kwargs :=
  DetectKwargs (Some "mad") (Some 3) (Some 42).

(** [rec.get_channel_ids()[all_channels == label]] *)
Definition ids_labelled (rec : Rec) (all_channels : list string) (label : string)
  : option (list chan_id) :=
  getitem_mask (get_channel_ids rec) (eq_elementwise all_channels label).

(** [np.sum(all_channels == label) / all_channels.shape[0]] *)
Definition prec_labelled (all_channels : list string) (label : string) : fraction :=
  (sum_bool (eq_elementwise all_channels label), length all_channels).

(** Lines 165-173: destriping shank by shank; [rec_split[sh]] looks the
    shanks up under the keys [0 .. len(rec_split) - 1]. *)
Definition destripe_by_shank (rec_interpolated : Rec) : option Rec :=
  let rec_split := split_by_group rec_interpolated in
  rec_destriped ← mapM (λ sh : nat, highpass_spatial_filter <$> rec_split !! Z.of_nat sh)
                       (seq 0 (size rec_split));
  aggregate_channels rec_destriped (get_channel_ids rec_interpolated).

(** Lines 161-178: destriping, per shank when there are several. *)
Definition destripe (rec_interpolated : Rec) : option Rec :=
  if decide (1 < n_unique (get_property_group rec_interpolated))%nat then
    destripe_by_shank rec_interpolated
  else
    Some (highpass_spatial_filter rec_interpolated).

(** Lines 197-200: the loop over [zip(notch_filter['FREQ'], notch_filter['Q'])]. *)
Fixpoint notch_loop (pairs : list (Num * Num)) (rec_notch : Rec) : Rec :=
  match pairs with
  | [] => rec_notch
  | (freq, q) :: pairs' => notch_loop pairs' (notch_filter rec_notch freq q)
  end.

(** Lines 189-214; [None] when the probe has no [notch_filter.json]. *)
Definition notch_stage (notch_file : option (notch_config Num)) (rec_destriped : Rec) : Rec :=
  match notch_file with
  | Some cfg => notch_loop (zip (FREQ cfg) (Q cfg)) rec_destriped
  | None => rec_destriped
  end.

(** Lines 127-214.  [None] is an exception raised by the script's own
    indexing; the plots are left out. *)
Definition condition (rec : Rec) (notch_file : option (notch_config Num))
  : option (conditioned Rec) :=
  let rec_filtered := highpass_filter rec "bessel" "float32" in
  let rec_shifted := phase_shift rec_filtered in
  let rec_comref := common_reference rec_filtered in
  let '(_, all_channels) := detect_bad_channels rec_filtered dead_pass_kwargs in
  let prec_dead_ch := prec_labelled all_channels "dead" in
  dead_channel_ids ← ids_labelled rec_filtered all_channels "dead";
  let prec_out_ch := prec_labelled all_channels "out" in
  out_channel_ids ← ids_labelled rec_filtered all_channels "out";
  let '(_, all_channels) := detect_bad_channels rec_comref noise_pass_kwargs in
  let prec_noise_ch := prec_labelled all_channels "noise" in
  noisy_channel_ids ← ids_labelled rec_comref all_channels "noise";
  let bad := dead_channel_ids ++ noisy_channel_ids ++ out_channel_ids in
  let rec_interpolated := interpolate_bad_channels rec_shifted bad in
  rec_destriped ← destripe rec_interpolated;
  let rec_final := notch_stage notch_file rec_destriped in
  Some (Conditioned rec_filtered rec_shifted rec_comref
          prec_dead_ch dead_channel_ids prec_out_ch out_channel_ids
          prec_noise_ch noisy_channel_ids bad
          rec_interpolated rec_destriped rec_final).

(** The two passes as the data model (section 3) words them: the dead and
    outside-brain channels from a default pass over the referenced signal,
    the noisy ones from the thresholded pass over the filtered signal. *)
Definition passes_as_in_data_model (c : conditioned Rec) : Prop :=
  ids_labelled (rec_comref c)
    (detect_bad_channels (rec_comref c) dead_pass_kwargs).2 "dead" = Some (dead_channel_ids c) ∧
  ids_labelled (rec_comref c)
    (detect_bad_channels (rec_comref c) dead_pass_kwargs).2 "out" = Some (out_channel_ids c) ∧
  ids_labelled (rec_filtered c)
    (detect_bad_channels (rec_filtered c) noise_pass_kwargs).2 "noise"
    = Some (noisy_channel_ids c).

End Chain.

(** *** SpikeInterface's lazy views

    A preprocessing call of SpikeInterface computes nothing: it returns an
    object that remembers its parent recording and its parameters.  [view]
    is that object; what the library would compute from the samples (labels,
    channel tables) is looked up in the tables [channels_of] and
    [labels_of]. *)
#[local] Set Warnings "-register-all".
Inductive view :=
  | Loaded (probe_path : string)
  | HighpassFilter (parent : view) (ftype dtype : string)
  | PhaseShift (parent : view)
  | CommonReference (parent : view)
  | InterpolateBadChannels (parent : view) (bad_channel_ids : list chan_id)
  | ChannelSlice (parent : view) (group : Z)
  | HighpassSpatialFilter (parent : view)
  | ChannelsAggregation (parents : list view) (renamed_channel_ids : list chan_id)
  | NotchFilter (parent : view) (freq q : Z).

(** Whether a view was derived through a phase-shift correction. *)
Fixpoint through_phase_shift (v : view) : bool :=
  match v with
  | Loaded _ => false
  | PhaseShift _ => true
  | HighpassFilter p _ _ | CommonReference p | InterpolateBadChannels p _
  | ChannelSlice p _ | HighpassSpatialFilter p | NotchFilter p _ _ => through_phase_shift p
  | ChannelsAggregation ps _ => existsb through_phase_shift ps
  end.

(** Whether a view was derived through common-average referencing. *)
Fixpoint through_common_reference (v : view) : bool :=
  match v with
  | Loaded _ => false
  | CommonReference _ => true
  | HighpassFilter p _ _ | PhaseShift p | InterpolateBadChannels p _
  | ChannelSlice p _ | HighpassSpatialFilter p | NotchFilter p _ _ => through_common_reference p
  | ChannelsAggregation ps _ => existsb through_common_reference ps
  end.

(** Whether a view was derived through the high-pass filter. *)
Fixpoint through_highpass (v : view) : bool :=
  match v with
  | Loaded _ => false
  | HighpassFilter _ _ _ => true
  | PhaseShift p | CommonReference p | InterpolateBadChannels p _
  | ChannelSlice p _ | HighpassSpatialFilter p | NotchFilter p _ _ => through_highpass p
  | ChannelsAggregation ps _ => existsb through_highpass ps
  end.

Section LazyViews.
Variable channels_of : view → list (chan_id * Z).
Variable labels_of : view → detect_kwargs → list string.

Definition view_bad_channels (v : view) (kw : detect_kwargs) : list chan_id * list string :=
  let labels := labels_of v kw in
  (compress ((λ l, bool_decide (l ≠ "good")) <$> labels) (channels_of v).*1, labels).

Definition view_split (v : view) : gmap Z view :=
  list_to_map ((λ g, (g, ChannelSlice v g)) <$> elements (list_to_set (C := gset Z) (channels_of v).*2)).

Definition view_aggregate (vs : list view) (ids : list chan_id) : option view :=
  if decide (length ids = length (vs ≫= channels_of)) then Some (ChannelsAggregation vs ids)
  else None.

#[local] Instance lazy_views : SpikeInterface view Z := {|
  highpass_filter := HighpassFilter;
  phase_shift := PhaseShift;
  common_reference := CommonReference;
  detect_bad_channels := view_bad_channels;
  get_channel_ids v := (channels_of v).*1;
  interpolate_bad_channels := InterpolateBadChannels;
  get_property_group v := (channels_of v).*2;
  split_by_group := view_split;
  highpass_spatial_filter := HighpassSpatialFilter;
  aggregate_channels := view_aggregate;
  notch_filter := NotchFilter
|}.

End LazyViews.

(** *** Recordings as channel tables

    The structural calls ([split_by], [aggregate_channels], the channel
    identifiers) act on the channel table alone; every numerical kernel is
    a parameter that computes the new trace of channel [k] from the whole
    recording, so a preprocessing step keeps the channels, their order,
    identifiers and groups, and replaces the traces. *)
Section ChannelTables.
Variable Sample : Type.

Record channel := Channel {
  ch_id : chan_id;
  ch_group : Z;
  ch_trace : list Sample
}.

(** A recording is the list of its channels, in order. *)
Abbreviation recording := (list channel).

Definition set_trace (c : channel) (t : list Sample) : channel :=
  Channel (ch_id c) (ch_group c) t.

Definition set_id (c : channel) (i : chan_id) : channel :=
  Channel i (ch_group c) (ch_trace c).

(** A preprocessing step with kernel [f]. *)
Definition preprocess (f : recording → nat → list Sample) (r : recording) : recording :=
  imap (λ k c, set_trace c (f r k)) r.

Record kernels := Kernels {
  k_highpass : string → string → recording → nat → list Sample;
  k_phase_shift : recording → nat → list Sample;
  k_common_reference : recording → nat → list Sample;
  k_labels : recording → detect_kwargs → list string;
  k_interpolate : list chan_id → recording → nat → list Sample;
  k_highpass_spatial : recording → nat → list Sample;
  k_notch : Z → Z → recording → nat → list Sample
}.

Variable K : kernels.

Definition table_bad_channels (r : recording) (kw : detect_kwargs) : list chan_id * list string :=
  let labels := k_labels K r kw in
  (compress ((λ l, bool_decide (l ≠ "good")) <$> labels) (ch_id <$> r), labels).

(** Modelled from the spec: [split_by] of SpikeInterface, which is not part
    of the repository; one sub-recording per shank label, holding the
    channels of that label in their order (section 4.3). *)
Definition table_split (r : recording) : gmap Z recording :=
  list_to_map ((λ g, (g, filter (λ c, ch_group c = g) r))
                 <$> elements (list_to_set (C := gset Z) (ch_group <$> r))).

(** Modelled from the spec: [aggregate_channels] of SpikeInterface, which is
    not part of the repository; the channels of the parts one after another,
    renamed in that order, and a loud failure when the identifiers do not
    fit (section 4.3). *)
Definition table_aggregate (rs : list recording) (ids : list chan_id) : option recording :=
  let all := concat rs in
  if decide (length ids = length all) then Some (zip_with set_id all ids) else None.

#[local] Instance channel_tables : SpikeInterface recording Z := {|
  highpass_filter r ftype dtype := preprocess (k_highpass K ftype dtype) r;
  phase_shift := preprocess (k_phase_shift K);
  common_reference := preprocess (k_common_reference K);
  detect_bad_channels := table_bad_channels;
  get_channel_ids r := ch_id <$> r;
  interpolate_bad_channels r ids := preprocess (k_interpolate K ids) r;
  get_property_group r := ch_group <$> r;
  split_by_group := table_split;
  highpass_spatial_filter := preprocess (k_highpass_spatial K);
  aggregate_channels := table_aggregate;
  notch_filter r freq q := preprocess (k_notch K freq q) r
|}.

(** The direct path: the filter on the whole recording. *)
Definition destripe_whole (r : recording) : recording :=
  preprocess (k_highpass_spatial K) r.

(** A recording whose channels carry exactly one distinct shank label. *)
Definition single_shank (r : recording) : Prop :=
  n_unique (ch_group <$> r) = 1%nat.

(** The equivalence as section 4.3 words it, of the per-shank path of lines
    165-173: on a single-shank recording it gives what the direct path
    gives. *)
Definition per_shank_path_as_specified (r : recording) : Prop :=
  single_shank r →
  destripe_by_shank (SI := channel_tables) r = Some (destripe_whole r).

End ChannelTables.

Arguments Channel {Sample} _ _ _.
Arguments ch_id {Sample} _.
Arguments ch_group {Sample} _.
Arguments ch_trace {Sample} _.
Arguments Kernels {Sample}.
Arguments channel_tables {Sample} K.
Arguments destripe_whole {Sample} K r.
Arguments single_shank {Sample} r.
Arguments per_shank_path_as_specified {Sample} K r.

End Conditioning.

(** ** Digital synchronisation pulses (lines 310-319) *)
Module Sync.
Import Py Numpy.

(** The value of a decimal digit, for the ASCII digits. *)
Definition digit_value (c : ascii) : option Z :=
  let n := Z.of_nat (nat_of_ascii c) in
  if decide (48 ≤ n ≤ 57)%Z then Some (n - 48)%Z else None.

(** [int(ch_name[-1])] *)
Definition int_of_last (ch_name : string) : result Z :=
  match last (String.list_ascii_of_string ch_name) with
  | None => Raise (Raised "IndexError" "string index out of range")
  | Some c =>
      match digit_value c with
      | Some d => Ok d
      | None => Raise (Raised "ValueError"
                         ("invalid literal for int() with base 10: '" +:+ String c EmptyString +:+ "'"))
      end
  end.

Section Extraction.
Variable Time : Type.

(** [np.save(file, arr)], on the [.npy] files under the session root. *)
Definition np_save (file : path) (arr : list Time) : M (gmap path (list Time)) unit :=
  modify (λ npy : gmap path (list Time), <[file := arr]> npy).

(** [sync_times[(sync_channels == ch) & (sync_polarities == 1)]]; the three
    arrays are the columns of one table of events. *)
Definition pulses_of (sync_times : list Time) (sync_channels sync_polarities : list Z) (ch : Z)
  : result (list Time) :=
  match and_elementwise (eq_elementwise sync_channels ch) (eq_elementwise sync_polarities 1) with
  | None => Raise (Raised "ValueError" "operands could not be broadcast together")
  | Some mask =>
      match getitem_mask sync_times mask with
      | None => Raise (Raised "IndexError" "boolean index did not match indexed array")
      | Some nidq_pulses => Ok nidq_pulses
      end
  end.

Section Loop.
Variable root : path.
(** [nidq_sync_dictionary['SYNC_WIRING_DIGITAL']], its items in order. *)
Variable SYNC_WIRING_DIGITAL : list (string * string).
Variable sync_times : list Time.
Variable sync_polarities sync_channels : list Z.

(** Where the pulses of the line called [name] are saved. *)
Definition times_file (name : string) : path := root ++ [name +:+ ".times.npy"].

(** The body of the loop of line 314. *)
Definition save_line (ii : nat) (item : string * string) : M (gmap path (list Time)) unit :=
  let '(ch_name, name) := item in
  if decide (ch_name = "imec_sync") then mret tt
  else
    ch ← lift (int_of_last ch_name);
    nidq_pulses ← lift (pulses_of sync_times sync_channels sync_polarities ch);
    np_save (times_file name) nidq_pulses.

(** Lines 314-319. *)
Definition extract_sync : M (gmap path (list Time)) unit :=
  for_enumerate save_line 0 SYNC_WIRING_DIGITAL.

End Loop.

(** The events as the data model has them: (channel, time, polarity). *)
Record sync_event := SyncEvent {
  ev_channel : Z;
  ev_time : Time;
  ev_polarity : Z
}.

Definition events (sync_times : list Time) (sync_channels sync_polarities : list Z)
  : list sync_event :=
  zip_with (λ ct p, SyncEvent ct.1 ct.2 p) (zip sync_channels sync_times) sync_polarities.

(** The times of the rising edges of channel [ch]. *)
Definition rising_times (ch : Z) (evs : list sync_event) : list Time :=
  ev_time <$> filter (λ e, ev_channel e = ch ∧ ev_polarity e = 1) evs.

(** The files as sections 3 and 6 word them: one for every line of the
    wiring but the reference line, which is the line called [imec_sync],
    holding the rising edges of that line; and none for the reference
    line. *)
Definition sync_files_as_specified (root : path)
    (SYNC_WIRING_DIGITAL : list (string * string))
    (sync_times : list Time) (sync_polarities sync_channels : list Z)
    (npy : gmap path (list Time)) : Prop :=
  ∀ ch_name name : string,
    (ch_name, name) ∈ SYNC_WIRING_DIGITAL →
    if decide (ch_name = "imec_sync" ∨ name = "imec_sync")
    then npy !! times_file root name = None
    else ∃ d : Z, int_of_last ch_name = Ok d ∧
           npy !! times_file root name
           = Some (rising_times d (events sync_times sync_channels sync_polarities)).

End Extraction.

Arguments extract_sync {Time}.
Arguments times_file root name /.
Arguments events {Time}.
Arguments rising_times {Time}.
Arguments pulses_of {Time}.
Arguments sync_files_as_specified {Time}.

End Sync.

(** ** The probe loop and the session marker (lines 97-347) *)
Module Orchestrator.
Import Py.

(** The file system: the directories, and the text files with their
    contents. *)
Record fs := FS {
  dirs : gset path;
  files : gmap path string
}.

Definition isdir (p : path) (f : fs) : bool := bool_decide (p ∈ dirs f).
Definition isfile (p : path) (f : fs) : bool := bool_decide (p ∈ dom (files f)).

(** [open(p, 'w').write(text)]: needs the directory of [p], and [p] not to
    be a directory. *)
Definition write_text (p : path) (text : string) (f : fs) : result unit * fs :=
  if isdir p f then (Raise (IsADirectoryError p), f)
  else if isdir (dirname p) f then (Ok tt, FS (dirs f) (<[p := text]> (files f)))
  else (Raise (FileNotFoundError p), f).

(** [shutil.rmtree(d)]: removes [d] and all below it; raises when [d] is
    not an existing directory. *)
Definition rmtree (d : path) (f : fs) : result unit * fs :=
  if isdir d f then
    (Ok tt, FS (filter (λ p, ¬ d `prefix_of` p) (dirs f))
               (filter (λ kv, ¬ d `prefix_of` kv.1) (files f)))
  else if isfile d f then (Raise (NotADirectoryError d), f)
  else (Raise (FileNotFoundError d), f).

(** [os.remove(p)] *)
Definition os_remove (p : path) (f : fs) : result unit * fs :=
  if isfile p f then (Ok tt, FS (dirs f) (delete p (files f)))
  else (Raise (FileNotFoundError p), f).

(** [os.mkdir(d)] *)
Definition os_mkdir (d : path) (f : fs) : result unit * fs :=
  if isdir d f || isfile d f then (Raise (FileExistsError d), f)
  else if isdir (dirname d) f then (Ok tt, FS ({[d]} ∪ dirs f) (files f))
  else (Raise (FileNotFoundError d), f).

(** The state of a probe (section 3 of the design); the script keeps it
    only through the directories on disk. *)
Inductive probe_state :=
  | not_started | synced | sorting_in_progress | sorting_failed
  | sorted | exported | done.

#[global] Instance probe_state_eq_dec : EqDecision probe_state.
Proof. solve_decision. Defined.

(** The terminal states of section 3. *)
Definition terminal (st : probe_state) : Prop :=
  st = done ∨ st = sorting_failed.

#[global] Instance terminal_dec st : Decision (terminal st).
Proof. unfold terminal. apply _. Defined.

(** The calls to the collaborators, as they are made. *)
Inductive call :=
  | SyncPulses (this_probe : string)
  | Conditioning (probe_path : path)
  | RunSorter (output_folder : path)
  | PrepareExport (probe_path : path)
  | ExportAlf (alf_path : path).

#[global] Instance call_eq_dec : EqDecision call.
Proof. solve_decision. Defined.

(** What the loop works on: the disk, [probe_done], and two records the
    script does not keep: the state of each probe and the calls made. *)
Record state := State {
  disk : fs;
  probe_done : list bool;
  probe_states : list probe_state;
  calls : list call
}.

(** The collaborators of one iteration.  Each is any function of the disk:
    what it leaves on the disk, and whether it returns or raises. *)
Record collaborators := Collaborators {
  (** lines 110-118: [EphysSyncPulses], [EphysPulses], by probe name *)
  sync_pulses : string → fs → result unit * fs;
  (** lines 121-214: loading and conditioning, by probe path *)
  conditioning : path → fs → result unit * fs;
  (** lines 219-225: [si.run_sorter], by output folder *)
  run_sorter : path → fs → result unit * fs;
  (** lines 241-273: raw-data QC, Bombcell, [params.py], by probe path *)
  prepare_export : path → fs → result unit * fs;
  (** lines 278-323: [ks2_to_alf], QC files, metrics, synchronisation,
      clean-up, by export directory *)
  export_alf : path → fs → result unit * fs
}.

(** An operation on the disk keeps a fact [P] about it. *)
Definition keeps (P : fs → Prop) (op : fs → result unit * fs) : Prop :=
  ∀ f, P f → P (op f).2.

(** Every collaborator keeps [P], whatever it is called on and however it
    ends. *)
Definition respected (ext : collaborators) (P : fs → Prop) : Prop :=
  (∀ x, keeps P (sync_pulses ext x)) ∧
  (∀ x, keeps P (conditioning ext x)) ∧
  (∀ x, keeps P (run_sorter ext x)) ∧
  (∀ x, keeps P (prepare_export ext x)) ∧
  (∀ x, keeps P (export_alf ext x)).

Definition has_file (p : path) (f : fs) : Prop := p ∈ dom (files f).
Definition has_dir (d : path) (f : fs) : Prop := d ∈ dirs f.

Section Session.
(** [settings_dict['SPIKE_SORTER']] and [settings_dict['IDENTIFIER']] *)
Variable SPIKE_SORTER IDENTIFIER : string.
Variable ext : collaborators.
(** The session directory. *)
Variable root : path.

(** Lines 39-42. *)
Definition id_str : string :=
  if decide (0 < String.length IDENTIFIER)%nat then "_" +:+ IDENTIFIER else EmptyString.

Definition marker : path := root ++ ["process_me.flag"].
(** An entry of [glob(join(root, 'raw_ephys_data', 'probe*'))], by its name. *)
Definition probe_path (this_probe : string) : path := root ++ ["raw_ephys_data"; this_probe].
Definition alf_path (this_probe : string) : path := root ++ [this_probe +:+ id_str].
Definition output_folder (this_probe : string) : path :=
  probe_path this_probe ++ [SPIKE_SORTER +:+ id_str].
Definition error_log (this_probe : string) : path :=
  probe_path this_probe ++ ["error_log.txt"].

(** A statement on the disk, as a statement on the state. *)
Definition on_disk (op : fs → result unit * fs) : M state unit :=
  Stmt (λ s, let '(r, f) := op (disk s) in
             (r, State f (probe_done s) (probe_states s) (calls s))).

(** A call to a collaborator. *)
Definition invoke (c : call) (op : fs → result unit * fs) : M state unit :=
  modify (λ s, State (disk s) (probe_done s) (probe_states s) (calls s ++ [c]));;
  on_disk op.

(** [probe_done[i] = True] *)
Definition set_done (i : nat) : M state unit :=
  modify (λ s, State (disk s) (<[i := true]> (probe_done s)) (probe_states s) (calls s)).

(** The probe enters a state. *)
Definition enter (i : nat) (st : probe_state) : M state unit :=
  modify (λ s, State (disk s) (probe_done s) (<[i := st]> (probe_states s)) (calls s)).

(** Lines 226-238: the handler of a failed sorter. *)
Definition sorter_failed (i : nat) (this_probe : string) (err : exn) : M state bool :=
  enter i sorting_failed;;
  on_disk (write_text (error_log this_probe) (str err));;
  on_disk (rmtree (output_folder this_probe));;
  mret false.

(** Lines 240-343: after a successful sort. *)
Definition reconcile (i : nat) (this_probe : string) : M state unit :=
  invoke (PrepareExport (probe_path this_probe)) (prepare_export ext (probe_path this_probe));;
  s ← get;
  (if isdir (alf_path this_probe) (disk s) then mret tt
   else on_disk (os_mkdir (alf_path this_probe)));;
  invoke (ExportAlf (alf_path this_probe)) (export_alf ext (alf_path this_probe));;
  enter i exported;;
  set_done i;;
  enter i done.

(** Lines 100-343: the body of the probe loop; what it prints is left
    out. *)
Definition process_probe (i : nat) (this_probe : string) : M state unit :=
  s ← get;
  if isdir (alf_path this_probe) (disk s) then
    set_done i;;
    enter i done
  else
    invoke (SyncPulses this_probe) (sync_pulses ext this_probe);;
    enter i synced;;
    invoke (Conditioning (probe_path this_probe)) (conditioning ext (probe_path this_probe));;
    enter i sorting_in_progress;;
    is_sorted ← try_except
      (invoke (RunSorter (output_folder this_probe)) (run_sorter ext (output_folder this_probe));;
       mret true)
      (sorter_failed i this_probe);
    if is_sorted : bool then
      enter i sorted;;
      reconcile i this_probe
    else mret tt.

(** The calls one iteration can make for a probe. *)
Definition calls_of (this_probe : string) : list call :=
  [SyncPulses this_probe; Conditioning (probe_path this_probe);
   RunSorter (output_folder this_probe); PrepareExport (probe_path this_probe);
   ExportAlf (alf_path this_probe)].

(** What the disk operations of one iteration keep. *)
Definition kept_locally (P : fs → Prop) (this_probe : string) : Prop :=
  (∀ text, keeps P (write_text (error_log this_probe) text)) ∧
  keeps P (rmtree (output_folder this_probe)) ∧
  keeps P (os_mkdir (alf_path this_probe)).

(** Lines 345-347. *)
Definition clear_marker (probes : list string) : M state unit :=
  s ← get;
  if decide (Numpy.sum_bool (probe_done s) = length probes) then on_disk (os_remove marker)
  else mret tt.

(** Lines 97-347: the probe loop and the marker, on the entries [probes]
    that [glob] finds, from the disk [f] that lines 66-94 leave. *)
Definition session (probes : list string) (f : fs) : result unit * state :=
  run (for_enumerate process_probe 0 probes;; clear_marker probes)
      (State f (replicate (length probes) false) (replicate (length probes) not_started) []).

(** The marker rule as section 4.7 words it: the marker goes exactly when
    every probe is in a terminal state. *)
Definition marker_rule_as_specified (s : state) : Prop :=
  ¬ has_file marker (disk s) ↔ Forall terminal (probe_states s).

End Session.

(** Entry [j] of the loop's records: after a completed iteration, before
    its iteration, and when [probe_done] and the probe's state agree. *)
Definition visited (s : state) (j : nat) : Prop :=
  (probe_done s !! j = Some true ∧ probe_states s !! j = Some done) ∨
  (probe_done s !! j = Some false ∧ probe_states s !! j = Some sorting_failed).

Definition pending (s : state) (j : nat) : Prop :=
  probe_done s !! j = Some false ∧ probe_states s !! j = Some not_started.

Definition consistent (s : state) (j : nat) : Prop :=
  ∃ (b : bool) (st : probe_state),
    probe_done s !! j = Some b ∧ probe_states s !! j = Some st ∧ (b = true ↔ st = done).

End Orchestrator.

(** ** Names and paths of a probe (lines 81-82, 125, 241-242 and 270) *)
Module Layout.
Import Py.

(** [s[-1]] on a string. *)
Definition last_char (s : string) : result ascii :=
  match last (String.list_ascii_of_string s) with
  | Some c => Ok c
  | None => Raise (Raised "IndexError" "string index out of range")
  end.

(** Line 82: the name given to a folder [*imec*] of the acquisition,
    ['probe0' + this_path[-1]]. *)
Definition probe_folder (this_path : string) : result string :=
  match last_char this_path with
  | Ok c => Ok ("probe0" +:+ String c EmptyString)
  | Raise err => Raise err
  end.

(** Line 125: [f'imec{split(probe_path)[-1][-1]}.ap'], on the name of the
    probe folder, which is [split(probe_path)[-1]]. *)
Definition stream_id (this_probe : string) : result string :=
  match last_char this_probe with
  | Ok c => Ok ("imec" +:+ String c EmptyString +:+ ".ap")
  | Raise err => Raise err
  end.

(** A path of [pathlib] or [os.path]: whether it is anchored at the root of
    the file system, and its parts. *)
Record pure_path := PurePath {
  anchored : bool;
  parts : list string
}.

(** [a / b], and [os.path.join(a, b)]: an anchored [b] drops [a]. *)
Definition joinpath (a b : pure_path) : pure_path :=
  if anchored b then b else PurePath (anchored a) (parts a ++ parts b).

(** The name of an entry of a directory, as a path. *)
Definition entry (name : string) : pure_path := PurePath false [name].

(** Line 241: [Path(join(root, 'raw_ephys_data', this_probe))] *)
Definition bin_path (root : pure_path) (this_probe : string) : pure_path :=
  joinpath (joinpath root (entry "raw_ephys_data")) (entry this_probe).

(** Line 242: an entry of [glob(join(bin_path, '*ap.*bin'))], for the file
    [name] of the probe folder. *)
Definition ap_file (root : pure_path) (this_probe name : string) : pure_path :=
  joinpath (bin_path root this_probe) (entry name).

(** Line 270: [bin_path / ap_file], the pointer written to [params.py]. *)
Definition dat_path (root : pure_path) (this_probe name : string) : pure_path :=
  joinpath (bin_path root this_probe) (ap_file root this_probe name).

End Layout.

(** ** Sessions and recordings used as examples *)
Module Examples.
Import Py Numpy Conditioning Sync Orchestrator.

(** A probe with two channels on one shank.  The default pass finds the
    first channel dead on the filtered signal, the thresholded pass finds
    the second one noisy on the referenced signal, and no other pass finds
    anything. *)
Definition two_channels (v : view) : list (chan_id * Z) :=
  [("AP0", 0); ("AP1", 0)].

Definition labels_by_signal (v : view) (kw : detect_kwargs) : list string :=
  match v, method kw with
  | HighpassFilter (Loaded _) _ _, None => ["dead"; "good"]
  | CommonReference _, Some _ => ["good"; "noise"]
  | _, _ => ["good"; "good"]
  end.

Definition probe00_views : SpikeInterface view Z :=
  lazy_views two_channels labels_by_signal.

Definition probe00_notch : notch_config Z := NotchConfig [50; 100] [30; 30].

(** What the chain binds on that probe. *)
Definition probe00_conditioned : conditioned view :=
  let filtered := HighpassFilter (Loaded "probe00") "bessel" "float32" in
  let interpolated := InterpolateBadChannels (PhaseShift filtered) ["AP0"; "AP1"] in
  Conditioned filtered (PhaseShift filtered) (CommonReference filtered)
    (1%nat, 2%nat) ["AP0"] (0%nat, 2%nat) [] (1%nat, 2%nat) ["AP1"] ["AP0"; "AP1"]
    interpolated (HighpassSpatialFilter interpolated)
    (NotchFilter (NotchFilter (HighpassSpatialFilter interpolated) 50 30) 100 30).

(** A recording of three channels on shank 2, with integer samples, and
    kernels that keep a trace, except the spatial filter, which subtracts
    the trace of the first channel. *)
Definition trace_of (r : list (channel Z)) (k : nat) : list Z :=
  default [] (ch_trace <$> r !! k).

Definition toy_kernels : kernels Z := {|
  k_highpass _ _ := trace_of;
  k_phase_shift := trace_of;
  k_common_reference := trace_of;
  k_labels r _ := (λ _, "good") <$> r;
  k_interpolate _ := trace_of;
  k_highpass_spatial r k := zip_with Z.sub (trace_of r k) (trace_of r 0);
  k_notch _ _ := trace_of
|}.

Definition shank2_recording : list (channel Z) :=
  [Channel "AP0" 2 [5; 7; 9]; Channel "AP1" 2 [6; 7; 8]; Channel "AP2" 2 [1; 0; 1]].

(** The same channels on a probe whose one shank is labelled 0. *)
Definition shank0_recording : list (channel Z) :=
  [Channel "AP0" 0 [5; 7; 9]; Channel "AP1" 0 [6; 7; 8]; Channel "AP2" 0 [1; 0; 1]].

(** Synchronisation events on three lines. *)
Definition wiring : list (string * string) :=
  [("imec_sync", "imec_sync"); ("P0.1", "left_camera"); ("P0.2", "lick_detector")].
Definition sync_times : list Z := [10; 20; 30; 40; 50].
Definition sync_channels : list Z := [0; 1; 1; 2; 1].
Definition sync_polarities : list Z := [1; 1; -1; 1; 1].

(** The wiring of a set-up whose reference line is named by its pin. *)
Definition wiring_by_pin : list (string * string) :=
  [("P0.0", "imec_sync"); ("P0.1", "left_camera")].

(** A session with two probes. *)
Definition session_root : path := ["data"; "mouse1"; "session_01"].
Definition SORTER : string := "kilosort2_5".
Definition RUN_ID : string := "v1".

Definition fresh_disk : fs :=
  FS {[ session_root;
        session_root ++ ["raw_ephys_data"];
        session_root ++ ["raw_ephys_data"; "probe00"];
        session_root ++ ["raw_ephys_data"; "probe01"] ]}
     {[ session_root ++ ["process_me.flag"] := EmptyString ]}.

(** The same session after an earlier run exported [probe00]. *)
Definition resumed_disk : fs :=
  FS ({[ session_root ++ ["probe00_v1"] ]} ∪ dirs fresh_disk) (files fresh_disk).

(** Collaborators that succeed; the sorter leaves its output folder. *)
Definition well_behaved : collaborators := {|
  sync_pulses _ f := (Ok tt, f);
  conditioning _ f := (Ok tt, f);
  run_sorter output_folder f := (Ok tt, FS ({[output_folder]} ∪ dirs f) (files f));
  prepare_export _ f := (Ok tt, f);
  export_alf _ f := (Ok tt, f)
|}.

(** The sorter creates its output folder and then fails. *)
Definition failing_late : collaborators := {|
  sync_pulses _ f := (Ok tt, f);
  conditioning _ f := (Ok tt, f);
  run_sorter output_folder f :=
    (Raise (Raised "Exception" "Spike sorting error trace"),
     FS ({[output_folder]} ∪ dirs f) (files f));
  prepare_export _ f := (Ok tt, f);
  export_alf _ f := (Ok tt, f)
|}.

(** The sorter fails before it creates its output folder, as
    [si.run_sorter] does for a sorter that is not installed. *)
Definition failing_early : collaborators := {|
  sync_pulses _ f := (Ok tt, f);
  conditioning _ f := (Ok tt, f);
  run_sorter output_folder f :=
    (Raise (Raised "Exception" "The sorter kilosort2_5 is not installed."), f);
  prepare_export _ f := (Ok tt, f);
  export_alf _ f := (Ok tt, f)
|}.

(** The session of section 8, run again with [probe00] exported: with
    collaborators that succeed, and with a sorter that fails on [probe01]. *)
Definition resumed_session : result unit * state :=
  session SORTER RUN_ID well_behaved session_root ["probe00"; "probe01"] resumed_disk.

Definition retried_session : result unit * state :=
  session SORTER RUN_ID failing_late session_root ["probe00"; "probe01"] resumed_disk.

(** A sorter that fails on [probe00] only, leaving its output folder. *)
Definition failing_on_probe00 : collaborators := {|
  sync_pulses _ f := (Ok tt, f);
  conditioning _ f := (Ok tt, f);
  run_sorter output_folder f :=
    if decide (output_folder = Orchestrator.output_folder SORTER RUN_ID session_root "probe00")
    then run_sorter failing_late output_folder f
    else run_sorter well_behaved output_folder f;
  prepare_export _ f := (Ok tt, f);
  export_alf _ f := (Ok tt, f)
|}.

(** The fresh session: with a sorter that fails on [probe00] after creating
    its folder, and with one that fails before. *)
Definition failed_session : result unit * state :=
  session SORTER RUN_ID failing_on_probe00 session_root ["probe00"; "probe01"] fresh_disk.

Definition aborted_session : result unit * state :=
  session SORTER RUN_ID failing_early session_root ["probe00"; "probe01"] fresh_disk.

(** A probe with two shanks, labelled 0 and 1. *)
Definition two_shank_recording : list (channel Z) :=
  [Channel "AP0" 0 [5; 7; 9]; Channel "AP1" 0 [6; 7; 8];
   Channel "AP2" 1 [1; 0; 1]; Channel "AP3" 1 [2; 2; 2]].

(** The exporter raises, after the script has made the export directory. *)
Definition failing_export : collaborators := {|
  sync_pulses _ f := (Ok tt, f);
  conditioning _ f := (Ok tt, f);
  run_sorter := run_sorter well_behaved;
  prepare_export _ f := (Ok tt, f);
  export_alf _ f := (Raise (Raised "FileNotFoundError" "spike_sorting_KS2.log"), f)
|}.

(** The recording of a probe cannot be read. *)
Definition unreadable_recording : collaborators := {|
  sync_pulses _ f := (Ok tt, f);
  conditioning _ f := (Raise (Raised "ValueError" "stream_id imec0.ap is not in ['imec1.ap']"), f);
  run_sorter := run_sorter well_behaved;
  prepare_export _ f := (Ok tt, f);
  export_alf _ f := (Ok tt, f)
|}.

(** The records of the loop when a session of two probes is entered. *)
Definition entered (f : fs) : state :=
  State f [false; false] [not_started; not_started] [].

(** The iteration on [probe00] of the fresh session, with an exporter that
    raises. *)
Definition unexported_probe00 : result unit * state :=
  run (process_probe SORTER RUN_ID failing_export session_root 0 "probe00") (entered fresh_disk).

(** The session run again on the disk that [failed_session] left, the
    sorter failing on [probe00] once more. *)
Definition second_session : result unit * state :=
  session SORTER RUN_ID failing_on_probe00 session_root ["probe00"; "probe01"]
    (disk failed_session.2).

End Examples.

(** * Facts *)

(** ** Python statements *)
Module PyFacts.
Import Py.

Lemma list_ascii_of_append (a b : string) :
  String.list_ascii_of_string (a +:+ b)
  = String.list_ascii_of_string a ++ String.list_ascii_of_string b.
Proof. induction a as [|c a IH]; simpl; [done|]. by rewrite <- IH. Qed.

(** Appending a fixed suffix loses nothing. *)
Lemma append_suffix_inj (suffix a b : string) : a +:+ suffix = b +:+ suffix → a = b.
Proof.
  intros H%(f_equal String.list_ascii_of_string).
  rewrite !list_ascii_of_append in H. apply app_inv_tail in H.
  apply (f_equal String.string_of_list_ascii) in H.
  by rewrite !String.string_of_list_ascii_of_string in H.
Qed.

Lemma run_bind {St A B} (m : M St A) (k : A → M St B) (s : St) :
  run (m ≫= k) s = match run m s with
                    | (Ok a, s') => run (k a) s'
                    | (Raise err, s') => (Raise err, s')
                    end.
Proof. done. Qed.

Lemma run_ret {St A} (a : A) (s : St) : run (mret a) s = (Ok a, s).
Proof. done. Qed.

Lemma run_for_cons {St A} (body : nat → A → M St unit) (i : nat) (x : A) (l : list A) (s : St) :
  run (for_enumerate body i (x :: l)) s
  = match run (body i x) s with
    | (Ok _, s') => run (for_enumerate body (S i) l) s'
    | (Raise err, s') => (Raise err, s')
    end.
Proof. done. Qed.

(** A loop over two lists, one after the other. *)
Lemma run_for_app {St A} (body : nat → A → M St unit) (i : nat) (l1 l2 : list A) (s : St) :
  run (for_enumerate body i (l1 ++ l2)) s
  = match run (for_enumerate body i l1) s with
    | (Ok _, s') => run (for_enumerate body (i + length l1) l2) s'
    | (Raise err, s') => (Raise err, s')
    end.
Proof.
  revert i s. induction l1 as [|x l1 IH]; intros i s.
  - simpl. by rewrite Nat.add_0_r.
  - rewrite <- app_comm_cons, !run_for_cons.
    destruct (run (body i x) s) as [[[]|err] s1]; [|done].
    rewrite IH. simpl length.
    replace (i + S (length l1))%nat with (S i + length l1)%nat by lia. done.
Qed.

(** Prepending a fixed prefix loses nothing. *)
Lemma append_prefix_inj (prefix a b : string) : prefix +:+ a = prefix +:+ b → a = b.
Proof. induction prefix as [|c prefix IH]; simpl; [done|]. intros [= H]. by apply IH. Qed.

End PyFacts.

(** ** Numpy idioms *)
Module NumpyFacts.
Import Numpy.

(** A mask picks the entries at the positions where it holds. *)
Lemma elem_of_compress {A} (mask : list bool) (a : list A) (x : A) :
  x ∈ compress mask a ↔ ∃ k : nat, a !! k = Some x ∧ mask !! k = Some true.
Proof.
  revert a. induction mask as [|b mask IH]; intros [|y a]; simpl.
  - split; [by intros ?%elem_of_nil | by intros (k & ? & ?)].
  - split; [by intros ?%elem_of_nil | by intros (k & ? & ?)].
  - split; [by intros ?%elem_of_nil | by intros (k & ? & ?)].
  - destruct b.
    + rewrite elem_of_cons, IH. split.
      * intros [->|(k & ? & ?)]; [by exists 0%nat | by exists (S k)].
      * intros ([|k] & Ha & Hm); simplify_eq/=; [by left | right; eauto].
    + rewrite IH. split.
      * intros (k & ? & ?). by exists (S k).
      * intros ([|k] & Ha & Hm); simplify_eq/=; eauto.
Qed.

Lemma lookup_eq_elementwise {A} `{EqDecision A} (arr : list A) (v : A) (k : nat) :
  eq_elementwise arr v !! k = Some true ↔ arr !! k = Some v.
Proof.
  unfold eq_elementwise. rewrite list_lookup_fmap.
  destruct (arr !! k) as [x|]; simpl; [|by split].
  split.
  - intros [= H%bool_decide_eq_true]. by subst.
  - intros [= ->]. by rewrite bool_decide_eq_true_2.
Qed.

Lemma getitem_mask_Some {A} (a : list A) (mask : list bool) (sel : list A) :
  getitem_mask a mask = Some sel ↔ length a = length mask ∧ sel = compress mask a.
Proof.
  unfold getitem_mask. case_decide as Hlen; split.
  - by intros [= <-].
  - by intros [_ ->].
  - done.
  - by intros [? _].
Qed.

(** One distinct value: every entry is that value. *)
Lemma n_unique_1 (a : list Z) :
  n_unique a = 1%nat → ∃ g, list_to_set (C := gset Z) a = {[g]} ∧ Forall (λ x, x = g) a.
Proof.
  unfold n_unique. intros [g Hg]%size_1_elem_of. exists g.
  apply leibniz_equiv in Hg. split; [done|].
  apply Forall_forall. intros x Hx.
  apply (elem_of_list_to_set (C := gset Z)) in Hx. rewrite Hg in Hx.
  by apply elem_of_singleton in Hx.
Qed.

Lemma filter_all {A} (P : A → Prop) `{∀ x, Decision (P x)} (l : list A) :
  Forall P l → filter P l = l.
Proof.
  induction 1 as [|x l Hx _ IH]; [done|]. by rewrite filter_cons_True, IH.
Qed.

Lemma sum_bool_all (l : list bool) :
  sum_bool l = length l ↔ Forall (λ b, b = true) l.
Proof.
  unfold sum_bool. induction l as [|b l IH]; simpl; [by split|].
  pose proof (length_filter (λ b, b = true) l) as Hle. destruct b.
  - rewrite filter_cons_True by done. simpl. rewrite Forall_cons. split.
    + intros [= H]. split; [done|]. by apply IH.
    + intros [_ H]. f_equal. by apply IH.
  - rewrite filter_cons_False by done. rewrite Forall_cons. split; [lia|by intros [? _]].
Qed.

Lemma length_eq_elementwise {A} `{EqDecision A} (arr : list A) (v : A) :
  length (eq_elementwise arr v) = length arr.
Proof. unfold eq_elementwise. by rewrite length_fmap. Qed.

(** A mask picks as many entries as it holds at. *)
Lemma length_compress {A} (mask : list bool) (a : list A) :
  length a = length mask → length (compress mask a) = sum_bool mask.
Proof.
  unfold sum_bool. revert a. induction mask as [|b mask IH]; intros [|x a] Hlen; try done.
  simpl in *. destruct b.
  - rewrite filter_cons_True by done. simpl. f_equal. apply IH. lia.
  - rewrite filter_cons_False by done. apply IH. lia.
Qed.

(** [zip] stops at the end of the shorter list. *)
Lemma zip_app_surplus_l {A B} (l surplus : list A) (k : list B) :
  length l = length k → zip (l ++ surplus) k = zip l k.
Proof.
  revert k. induction l as [|x l IH]; intros [|y k] Hlen; simplify_eq/=.
  - by destruct surplus.
  - f_equal. by apply IH.
Qed.

Lemma zip_app_surplus_r {A B} (l : list A) (k surplus : list B) :
  length l = length k → zip l (k ++ surplus) = zip l k.
Proof.
  revert k. induction l as [|x l IH]; intros [|y k] Hlen; simplify_eq/=.
  - done.
  - f_equal. by apply IH.
Qed.

End NumpyFacts.

(** ** The signal-conditioning chain *)
Module ConditioningFacts.
Import Numpy NumpyFacts Conditioning Examples.

Section Chain.
Context {Rec Num : Type} `{SI : SpikeInterface Rec Num}.

(** What a completed pass through the chain has bound. *)
Lemma condition_Some (rec : Rec) (notch_file : option (notch_config Num)) (c : conditioned Rec) :
  condition rec notch_file = Some c →
  let f := highpass_filter rec "bessel" "float32" in
  let la := (detect_bad_channels f dead_pass_kwargs).2 in
  let lb := (detect_bad_channels (common_reference f) noise_pass_kwargs).2 in
  ∃ dead out noisy destriped,
    ids_labelled f la "dead" = Some dead ∧
    ids_labelled f la "out" = Some out ∧
    ids_labelled (common_reference f) lb "noise" = Some noisy ∧
    destripe (interpolate_bad_channels (phase_shift f) (dead ++ noisy ++ out)) = Some destriped ∧
    c = Conditioned f (phase_shift f) (common_reference f)
          (prec_labelled la "dead") dead (prec_labelled la "out") out
          (prec_labelled lb "noise") noisy (dead ++ noisy ++ out)
          (interpolate_bad_channels (phase_shift f) (dead ++ noisy ++ out))
          destriped (notch_stage notch_file destriped).
Proof.
  unfold condition. intros H. simpl.
  destruct (detect_bad_channels (highpass_filter rec "bessel" "float32") dead_pass_kwargs)
    as [bad_a la] eqn:Ea.
  destruct (detect_bad_channels
              (common_reference (highpass_filter rec "bessel" "float32")) noise_pass_kwargs)
    as [bad_b lb] eqn:Eb.
  simpl in *.
  destruct (ids_labelled _ la "dead") as [dead|] eqn:Ed; [|done].
  destruct (ids_labelled _ la "out") as [out|] eqn:Eo; [|done].
  destruct (ids_labelled _ lb "noise") as [noisy|] eqn:En; [|done].
  simpl in H.
  destruct (destripe _) as [destriped|] eqn:Es; [|done].
  simpl in H. injection H as <-.
  by exists dead, out, noisy, destriped.
Qed.

(** The identifiers picked by a label are those of the channels that carry it. *)
Lemma elem_of_ids_labelled (rec : Rec) (labels : list string) (label : string)
    (ids : list chan_id) (ch : chan_id) :
  ids_labelled rec labels label = Some ids →
  ch ∈ ids ↔ ∃ k : nat, get_channel_ids rec !! k = Some ch ∧ labels !! k = Some label.
Proof.
  unfold ids_labelled. intros [_ ->]%getitem_mask_Some.
  rewrite elem_of_compress. by setoid_rewrite lookup_eq_elementwise.
Qed.

Lemma notch_loop_app (pairs1 pairs2 : list (Num * Num)) (r : Rec) :
  notch_loop (pairs1 ++ pairs2) r = notch_loop pairs2 (notch_loop pairs1 r).
Proof.
  revert r. induction pairs1 as [|[freq q] pairs1 IH]; intros r; simpl; [done|apply IH].
Qed.

Lemma notch_loop_step (pairs : list (Num * Num)) (r : Rec) (k : nat) (freq q : Num) :
  pairs !! k = Some (freq, q) →
  notch_loop (take (S k) pairs) r = notch_filter (notch_loop (take k pairs) r) freq q.
Proof.
  intros Hk. by rewrite (take_S_r _ _ _ Hk), notch_loop_app.
Qed.

(** C4: in a completed pass of the chain, the phase-shift correction is
    applied to the high-pass-filtered signal, the common-average reference is
    computed from that same filtered signal (not from the phase-shifted
    one), and the bad channels are interpolated on the phase-shifted
    signal. *)
Theorem conditioning_order (rec : Rec) (notch_file : option (notch_config Num))
    (c : conditioned Rec) :
  condition rec notch_file = Some c →
  rec_filtered c = highpass_filter rec "bessel" "float32" ∧
  rec_shifted c = phase_shift (rec_filtered c) ∧
  rec_comref c = common_reference (rec_filtered c) ∧
  rec_interpolated c = interpolate_bad_channels (rec_shifted c) (interpolated_ids c).
Proof.
  intros (dead & out & noisy & destriped & _ & _ & _ & _ & ->)%condition_Some.
  by simpl.
Qed.

(** C5: the identifiers handed to the interpolation are, as a set, the union
    of the dead, noisy and outside-brain identifiers of the two passes: a
    channel is interpolated exactly when the first pass labels it dead or
    outside the brain or the second pass labels it noisy. *)
Theorem interpolation_targets_union (rec : Rec) (notch_file : option (notch_config Num))
    (c : conditioned Rec) :
  condition rec notch_file = Some c →
  rec_interpolated c = interpolate_bad_channels (rec_shifted c) (interpolated_ids c) ∧
  list_to_set (interpolated_ids c) =@{gset chan_id}
    list_to_set (dead_channel_ids c) ∪ list_to_set (noisy_channel_ids c)
    ∪ list_to_set (out_channel_ids c) ∧
  ∀ ch : chan_id,
    ch ∈ interpolated_ids c ↔
      (∃ k : nat, get_channel_ids (rec_filtered c) !! k = Some ch ∧
         (detect_bad_channels (rec_filtered c) dead_pass_kwargs).2 !! k = Some "dead") ∨
      (∃ k : nat, get_channel_ids (rec_comref c) !! k = Some ch ∧
         (detect_bad_channels (rec_comref c) noise_pass_kwargs).2 !! k = Some "noise") ∨
      (∃ k : nat, get_channel_ids (rec_filtered c) !! k = Some ch ∧
         (detect_bad_channels (rec_filtered c) dead_pass_kwargs).2 !! k = Some "out").
Proof.
  intros (dead & out & noisy & destriped & Hd & Ho & Hn & _ & ->)%condition_Some.
  simpl. split_and!; [done| |].
  - rewrite !list_to_set_app_L. by rewrite (assoc_L (∪)).
  - intros ch. rewrite !elem_of_app.
    by rewrite (elem_of_ids_labelled _ _ _ _ ch Hd), (elem_of_ids_labelled _ _ _ _ ch Hn),
      (elem_of_ids_labelled _ _ _ _ ch Ho).
Qed.

(** C6: the classifier runs twice, both times with seed 42: once on the
    high-pass-filtered signal with the detector's default method, which
    gives the dead and the outside-brain channels and their fractions, and
    once on the common-average-referenced signal with method [mad] and
    threshold 3, which gives the noisy channels and their fraction. *)
Theorem two_pass_classifier (rec : Rec) (notch_file : option (notch_config Num))
    (c : conditioned Rec) :
  condition rec notch_file = Some c →
  let pass_a := (detect_bad_channels (rec_filtered c) (DetectKwargs None None (Some 42))).2 in
  let pass_b := (detect_bad_channels (rec_comref c)
                   (DetectKwargs (Some "mad") (Some 3) (Some 42))).2 in
  rec_filtered c = highpass_filter rec "bessel" "float32" ∧
  rec_comref c = common_reference (rec_filtered c) ∧
  ids_labelled (rec_filtered c) pass_a "dead" = Some (dead_channel_ids c) ∧
  ids_labelled (rec_filtered c) pass_a "out" = Some (out_channel_ids c) ∧
  ids_labelled (rec_comref c) pass_b "noise" = Some (noisy_channel_ids c) ∧
  prec_dead_ch c = (sum_bool (eq_elementwise pass_a "dead"), length pass_a) ∧
  prec_out_ch c = (sum_bool (eq_elementwise pass_a "out"), length pass_a) ∧
  prec_noise_ch c = (sum_bool (eq_elementwise pass_b "noise"), length pass_b).
Proof.
  intros (dead & out & noisy & destriped & Hd & Ho & Hn & _ & ->)%condition_Some.
  simpl. by split_and!.
Qed.

(** C7 (amended): the pass that finds the dead and the outside-brain
    channels runs on the high-pass-filtered signal, and the pass that finds
    the noisy channels, with method [mad] and threshold 3, runs on the
    common-average-referenced signal: a channel is among the dead (outside,
    noisy) ones exactly when that pass gives it that label. *)
Theorem passes_follow_section_4_2 (rec : Rec) (notch_file : option (notch_config Num))
    (c : conditioned Rec) (ch : chan_id) :
  condition rec notch_file = Some c →
  let filtered := highpass_filter rec "bessel" "float32" in
  let referenced := common_reference filtered in
  (ch ∈ dead_channel_ids c ↔
     ∃ k : nat, get_channel_ids filtered !! k = Some ch ∧
       (detect_bad_channels filtered (DetectKwargs None None (Some 42))).2 !! k = Some "dead") ∧
  (ch ∈ out_channel_ids c ↔
     ∃ k : nat, get_channel_ids filtered !! k = Some ch ∧
       (detect_bad_channels filtered (DetectKwargs None None (Some 42))).2 !! k = Some "out") ∧
  (ch ∈ noisy_channel_ids c ↔
     ∃ k : nat, get_channel_ids referenced !! k = Some ch ∧
       (detect_bad_channels referenced (DetectKwargs (Some "mad") (Some 3) (Some 42))).2 !! k
         = Some "noise").
Proof.
  intros (dead & out & noisy & destriped & Hd & Ho & Hn & _ & ->)%condition_Some.
  simpl. split_and!.
  - apply (elem_of_ids_labelled _ _ _ _ ch Hd).
  - apply (elem_of_ids_labelled _ _ _ _ ch Ho).
  - apply (elem_of_ids_labelled _ _ _ _ ch Hn).
Qed.

(** C9: without a notch configuration the final recording is the destriped
    one; with a configuration the filters are applied one after the other in
    the order of the lists, the filter of each pair on the output of the
    filter before it, and the final recording is the output of the last. *)
Theorem notch_stage_sequential (rec : Rec) (notch_file : option (notch_config Num))
    (c : conditioned Rec) :
  condition rec notch_file = Some c →
  match notch_file with
  | None => rec_final c = rec_destriped c
  | Some cfg =>
      let pairs := zip (FREQ cfg) (Q cfg) in
      let after (k : nat) := notch_loop (take k pairs) (rec_destriped c) in
      after 0%nat = rec_destriped c ∧
      (∀ (k : nat) (freq q : Num),
         pairs !! k = Some (freq, q) → after (S k) = notch_filter (after k) freq q) ∧
      rec_final c = after (length pairs)
  end.
Proof.
  intros (dead & out & noisy & destriped & _ & _ & _ & _ & ->)%condition_Some.
  destruct notch_file as [cfg|]; simpl; [|done].
  split_and!.
  - done.
  - intros k freq q Hk. by apply notch_loop_step.
  - by rewrite firstn_all.
Qed.

Lemma mapM_lookups (m : gmap Z Rec) (f : Rec → Rec) (n : nat) (l : list Rec) :
  mapM (λ sh : nat, f <$> m !! Z.of_nat sh) (seq 0 n) = Some l →
  ∀ sh : nat, (sh < n)%nat → is_Some (m !! Z.of_nat sh).
Proof.
  intros Hm sh Hsh. apply mapM_Some_1 in Hm.
  assert (seq 0 n !! sh = Some sh) as Hseq by (by apply lookup_seq_lt).
  destruct (Forall2_lookup_l _ _ _ _ _ Hm Hseq) as (y & _ & Hy).
  simpl in Hy. destruct (m !! Z.of_nat sh); [by eexists|done].
Qed.

(** X1: destriping shank by shank (lines 165-173) looks the parts of the
    split up under 0, 1, .., n-1 for a split into n parts; it comes to an
    end only on a recording whose shank labels are exactly those numbers. *)
Theorem destripe_by_shank_needs_labels_from_0 (rec r : Rec) (g : Z) :
  destripe_by_shank rec = Some r →
  g ∈ dom (split_by_group rec) ↔ 0 ≤ g < Z.of_nat (size (split_by_group rec)).
Proof.
  unfold destripe_by_shank. simpl. intros Hsome.
  destruct (mapM _ _) as [l|] eqn:Hm; [|done]. clear Hsome.
  pose proof (mapM_lookups _ _ _ _ Hm) as Hkeys.
  set (m := split_by_group rec) in *.
  set (keys := list_to_set (C := gset Z) (Z.of_nat <$> seq 0 (size m))).
  assert (keys ⊆ dom m) as Hsub.
  { intros k [sh [-> Hsh%elem_of_seq]]%elem_of_list_to_set%list_elem_of_fmap.
    apply elem_of_dom, Hkeys. lia. }
  assert (size keys = size m) as Hsize.
  { unfold keys. rewrite size_list_to_set.
    - by rewrite length_fmap, length_seq.
    - apply NoDup_fmap; [apply _|apply NoDup_seq]. }
  assert (keys = dom m) as Heq.
  { apply set_subseteq_size_eq; [done|]. rewrite size_dom. lia. }
  rewrite <- Heq. unfold keys. rewrite elem_of_list_to_set, list_elem_of_fmap. split.
  - intros [sh [-> Hsh%elem_of_seq]]. lia.
  - intros Hg. exists (Z.to_nat g). split; [lia|]. apply elem_of_seq. lia.
Qed.

(** X2: the notch loop runs over [zip(FREQ, Q)] (line 197), which stops at
    the shorter list: frequencies without a quality factor, and quality
    factors without a frequency, change nothing. *)
Theorem notch_stage_ignores_unpaired (freqs qs surplus : list Num) (rec_destriped : Rec) :
  length freqs = length qs →
  notch_stage (Some (NotchConfig (freqs ++ surplus) qs)) rec_destriped
    = notch_stage (Some (NotchConfig freqs qs)) rec_destriped ∧
  notch_stage (Some (NotchConfig freqs (qs ++ surplus))) rec_destriped
    = notch_stage (Some (NotchConfig freqs qs)) rec_destriped.
Proof.
  intros Hlen. unfold notch_stage. simpl.
  by rewrite zip_app_surplus_l, zip_app_surplus_r.
Qed.

(** X3: the fractions the chain reports (lines 143-155) count the channels
    it lists: each numerator is the length of the list of identifiers with
    that label, each denominator the number of channels of the signal the
    pass looked at, and the list handed to the interpolation has as many
    entries as the three numerators together. *)
Theorem reported_counts_match_ids (rec : Rec) (notch_file : option (notch_config Num))
    (c : conditioned Rec) :
  condition rec notch_file = Some c →
  length (dead_channel_ids c) = (prec_dead_ch c).1 ∧
  length (out_channel_ids c) = (prec_out_ch c).1 ∧
  length (noisy_channel_ids c) = (prec_noise_ch c).1 ∧
  length (interpolated_ids c)
    = ((prec_dead_ch c).1 + (prec_noise_ch c).1 + (prec_out_ch c).1)%nat ∧
  (prec_dead_ch c).2 = length (get_channel_ids (rec_filtered c)) ∧
  (prec_out_ch c).2 = length (get_channel_ids (rec_filtered c)) ∧
  (prec_noise_ch c).2 = length (get_channel_ids (rec_comref c)).
Proof.
  intros (dead & out & noisy & destriped & Hd & Ho & Hn & _ & ->)%condition_Some.
  unfold ids_labelled in *.
  apply getitem_mask_Some in Hd as [Hld ->], Ho as [Hlo ->], Hn as [Hln ->].
  simpl. rewrite !length_app, !length_compress by done.
  rewrite length_eq_elementwise in Hld, Hln.
  unfold prec_labelled. simpl. split_and!; try done. lia.
Qed.

(** X4: the first pass gives one label to a channel, so with distinct
    channel identifiers no channel is listed both as dead and as outside
    the brain (lines 144-147). *)
Theorem dead_and_outside_are_disjoint (rec : Rec) (notch_file : option (notch_config Num))
    (c : conditioned Rec) (ch : chan_id) :
  condition rec notch_file = Some c →
  NoDup (get_channel_ids (rec_filtered c)) →
  ch ∈ dead_channel_ids c → ch ∉ out_channel_ids c.
Proof.
  intros (dead & out & noisy & destriped & Hd & Ho & Hn & _ & ->)%condition_Some.
  simpl. intros Hnd Hdead Hout.
  apply (elem_of_ids_labelled _ _ _ _ ch Hd) in Hdead as (k & Hk & Hlab).
  apply (elem_of_ids_labelled _ _ _ _ ch Ho) in Hout as (k' & Hk' & Hlab').
  assert (k = k') as <- by (by eapply NoDup_lookup).
  congruence.
Qed.

(** X5: the file [notch_filter.json] bears on the last signal only: with
    it, the chain binds what it binds without it, and [rec_final] is the
    notch stage run on the destriped signal, which is [rec_final] of the
    chain without the file. *)
Theorem notch_file_changes_rec_final_only (rec : Rec) (notch_file : option (notch_config Num))
    (c : conditioned Rec) :
  condition rec notch_file = Some c →
  ∃ c0 : conditioned Rec,
    condition rec None = Some c0 ∧
    rec_final c0 = rec_destriped c ∧
    rec_final c = notch_stage notch_file (rec_final c0) ∧
    c0 = Conditioned (rec_filtered c) (rec_shifted c) (rec_comref c)
           (prec_dead_ch c) (dead_channel_ids c) (prec_out_ch c) (out_channel_ids c)
           (prec_noise_ch c) (noisy_channel_ids c) (interpolated_ids c)
           (rec_interpolated c) (rec_destriped c) (rec_destriped c).
Proof.
  intros (dead & out & noisy & destriped & Hd & Ho & Hn & Hs & ->)%condition_Some.
  simpl. eexists. split_and!; cycle 3.
  { reflexivity. }
  2, 3: done.
  unfold condition.
  destruct (detect_bad_channels (highpass_filter rec "bessel" "float32") dead_pass_kwargs)
    as [bad_a la].
  destruct (detect_bad_channels
              (common_reference (highpass_filter rec "bessel" "float32")) noise_pass_kwargs)
    as [bad_b lb].
  simpl in *. rewrite Hd, Ho, Hn. simpl. rewrite Hs. done.
Qed.

End Chain.

(** On lazy views the derivation of each signal can be read off: the
    referenced signal never went through the phase shift, and the
    interpolated one never went through the reference. *)
Lemma lazy_view_provenance (channels_of : view → list (chan_id * Z))
    (labels_of : view → detect_kwargs → list string) (probe_path : string)
    (notch_file : option (notch_config Z)) (c : conditioned view) :
  condition (SI := lazy_views channels_of labels_of) (Loaded probe_path) notch_file = Some c →
  through_highpass (rec_shifted c) = true ∧
  through_highpass (rec_comref c) = true ∧
  through_phase_shift (rec_comref c) = false ∧
  through_phase_shift (rec_interpolated c) = true ∧
  through_common_reference (rec_interpolated c) = false.
Proof.
  intros (dead & out & noisy & destriped & _ & _ & _ & _ & ->)%condition_Some.
  by simpl.
Qed.

(** The example probe, conditioned. *)
Lemma probe00_conditioning :
  condition (SI := probe00_views) (Loaded "probe00") (Some probe00_notch)
  = Some probe00_conditioned.
Proof. reflexivity. Qed.

Lemma conditioning_order_witness :
  condition (SI := probe00_views) (Loaded "probe00") (Some probe00_notch)
    = Some probe00_conditioned ∧
  rec_shifted probe00_conditioned
    = PhaseShift (HighpassFilter (Loaded "probe00") "bessel" "float32") ∧
  rec_comref probe00_conditioned
    = CommonReference (HighpassFilter (Loaded "probe00") "bessel" "float32") ∧
  rec_interpolated probe00_conditioned
    = InterpolateBadChannels (rec_shifted probe00_conditioned) ["AP0"; "AP1"].
Proof.
  split; [reflexivity|].
  destruct (conditioning_order (SI := probe00_views) (Loaded "probe00") (Some probe00_notch)
              probe00_conditioned eq_refl) as (Hf & Hs & Hc & Hi).
  rewrite Hf in Hs, Hc. by split_and!.
Defined.

Lemma interpolation_targets_union_witness :
  condition (SI := probe00_views) (Loaded "probe00") (Some probe00_notch)
    = Some probe00_conditioned ∧
  list_to_set (interpolated_ids probe00_conditioned) =@{gset chan_id}
    list_to_set (dead_channel_ids probe00_conditioned)
    ∪ list_to_set (noisy_channel_ids probe00_conditioned)
    ∪ list_to_set (out_channel_ids probe00_conditioned).
Proof.
  split; [reflexivity|].
  exact (proj1 (proj2 (interpolation_targets_union (SI := probe00_views)
                         (Loaded "probe00") (Some probe00_notch) probe00_conditioned eq_refl))).
Defined.

Lemma two_pass_classifier_witness :
  condition (SI := probe00_views) (Loaded "probe00") (Some probe00_notch)
    = Some probe00_conditioned ∧
  ids_labelled (SI := probe00_views) (rec_filtered probe00_conditioned)
    ["dead"; "good"] "dead" = Some (dead_channel_ids probe00_conditioned) ∧
  ids_labelled (SI := probe00_views) (rec_comref probe00_conditioned)
    ["good"; "noise"] "noise" = Some (noisy_channel_ids probe00_conditioned).
Proof.
  split; [reflexivity|].
  destruct (two_pass_classifier (SI := probe00_views) (Loaded "probe00") (Some probe00_notch)
              probe00_conditioned eq_refl) as (_ & _ & Hd & _ & Hn & _).
  by split.
Defined.

Lemma passes_follow_section_4_2_witness :
  condition (SI := probe00_views) (Loaded "probe00") (Some probe00_notch)
    = Some probe00_conditioned ∧
  ("AP0" ∈ dead_channel_ids probe00_conditioned ↔
     ∃ k : nat, ["AP0"; "AP1"] !! k = Some "AP0" ∧ ["dead"; "good"] !! k = Some "dead").
Proof.
  split; [reflexivity|].
  exact (proj1 (passes_follow_section_4_2 (SI := probe00_views) (Loaded "probe00")
                  (Some probe00_notch) probe00_conditioned "AP0" eq_refl)).
Defined.

Lemma notch_stage_sequential_witness :
  condition (SI := probe00_views) (Loaded "probe00") (Some probe00_notch)
    = Some probe00_conditioned ∧
  rec_final probe00_conditioned
    = NotchFilter (NotchFilter (rec_destriped probe00_conditioned) 50 30) 100 30.
Proof.
  split; [reflexivity|].
  exact (proj2 (proj2 (notch_stage_sequential (SI := probe00_views) (Loaded "probe00")
                         (Some probe00_notch) probe00_conditioned eq_refl))).
Defined.

(** The data model's wording of the two passes fails on the example probe:
    the dead channel was found on the filtered signal, where the data model
    has that pass look at the referenced one. *)
Lemma data_model_passes_counterexample :
  condition (SI := probe00_views) (Loaded "probe00") (Some probe00_notch)
    = Some probe00_conditioned ∧
  ¬ passes_as_in_data_model (SI := probe00_views) probe00_conditioned.
Proof.
  split; [reflexivity|]. intros (Hdead & _ & _). discriminate Hdead.
Qed.

Section Tables.
Context {Sample : Type} (K : kernels Sample).

(** A preprocessing step keeps the identifiers of the channels. *)
Lemma preprocess_ids (f : list (channel Sample) → nat → list Sample)
    (r : list (channel Sample)) :
  ch_id <$> preprocess Sample f r = ch_id <$> r.
Proof.
  unfold preprocess. apply list_eq. intros i.
  rewrite !list_lookup_fmap, list_lookup_imap. by destruct (r !! i).
Qed.

Lemma rename_own_ids (l : list (channel Sample)) (ids : list chan_id) :
  ch_id <$> l = ids → zip_with (set_id Sample) l ids = l.
Proof.
  intros <-. induction l as [|[i g t] l IH].
  - done.
  - rewrite fmap_cons. simpl. unfold set_id at 1. simpl. by rewrite IH.
Qed.

(** Splitting a single-shank recording gives the recording itself, under its
    label. *)
Lemma table_split_single (r : list (channel Sample)) :
  single_shank r →
  ∃ g, table_split Sample r = {[g := r]} ∧ Forall (λ c, ch_group c = g) r.
Proof.
  intros (g & Hg & Hall)%n_unique_1. exists g.
  apply Forall_fmap in Hall. split; [|done].
  unfold table_split. rewrite Hg, elements_singleton. simpl.
  rewrite insert_empty. f_equal. by apply filter_all.
Qed.

Lemma table_aggregate_one (r' : list (channel Sample)) (ids : list chan_id) :
  ch_id <$> r' = ids → table_aggregate Sample [r'] ids = Some r'.
Proof.
  intros Hids. unfold table_aggregate. simpl. rewrite app_nil_r.
  rewrite decide_True by (by rewrite <- Hids, length_fmap).
  by rewrite rename_own_ids.
Qed.

(** The loop of lines 168-169 looks the parts up under [0, 1, ..]: run on
    a single-shank recording, it finds its part only under label 0. *)
Lemma destripe_by_shank_single (r : list (channel Sample)) (g : Z) :
  table_split Sample r = {[g := r]} →
  destripe_by_shank (SI := channel_tables K) r
  = if decide (g = 0) then Some (destripe_whole K r) else None.
Proof.
  intros Hsplit. unfold destripe_by_shank. simpl. rewrite Hsplit, map_size_singleton. simpl.
  case_decide as Hg.
  - subst g. rewrite lookup_singleton_eq. simpl.
    apply table_aggregate_one, preprocess_ids.
  - by rewrite lookup_singleton_ne.
Qed.


End Tables.



Lemma destripe_by_shank_needs_labels_from_0_witness :
  destripe_by_shank (SI := channel_tables toy_kernels) two_shank_recording
  = Some [Channel "AP0" 0 [0; 0; 0]; Channel "AP1" 0 [1; 0; -1];
          Channel "AP2" 1 [0; 0; 0]; Channel "AP3" 1 [1; 2; 1]] ∧
  (1 ∈ dom (table_split Z two_shank_recording) ↔ 0 ≤ 1 < 2).
Proof.
  assert (destripe_by_shank (SI := channel_tables toy_kernels) two_shank_recording
          = Some [Channel "AP0" 0 [0; 0; 0]; Channel "AP1" 0 [1; 0; -1];
                  Channel "AP2" 1 [0; 0; 0]; Channel "AP3" 1 [1; 2; 1]]) as Hrun
    by (by vm_compute).
  split; [exact Hrun|].
  exact (destripe_by_shank_needs_labels_from_0 (SI := channel_tables toy_kernels)
           two_shank_recording _ 1 Hrun).
Defined.

Lemma notch_stage_ignores_unpaired_witness :
  notch_stage (SI := probe00_views) (Some (NotchConfig [50; 100; 150] [30; 30]))
    (rec_destriped probe00_conditioned)
  = rec_final probe00_conditioned.
Proof.
  exact (proj1 (notch_stage_ignores_unpaired (SI := probe00_views) [50; 100] [30; 30] [150]
                  (rec_destriped probe00_conditioned) eq_refl)).
Defined.

Lemma reported_counts_match_ids_witness :
  condition (SI := probe00_views) (Loaded "probe00") (Some probe00_notch)
    = Some probe00_conditioned ∧
  length (interpolated_ids probe00_conditioned) = (1 + 1 + 0)%nat.
Proof.
  split; [reflexivity|].
  exact (proj1 (proj2 (proj2 (proj2
           (reported_counts_match_ids (SI := probe00_views) (Loaded "probe00")
              (Some probe00_notch) probe00_conditioned eq_refl))))).
Defined.

Lemma dead_and_outside_are_disjoint_witness :
  condition (SI := probe00_views) (Loaded "probe00") (Some probe00_notch)
    = Some probe00_conditioned ∧
  "AP0" ∈ dead_channel_ids probe00_conditioned ∧
  "AP0" ∉ out_channel_ids probe00_conditioned.
Proof.
  assert ("AP0" ∈ dead_channel_ids probe00_conditioned) as Hdead
    by (apply elem_of_cons; by left).
  assert (NoDup (get_channel_ids (SpikeInterface := probe00_views)
                   (rec_filtered probe00_conditioned))) as Hids
    by (apply (bool_decide_unpack _); by vm_compute).
  split_and!; [reflexivity|exact Hdead|].
  exact (dead_and_outside_are_disjoint (SI := probe00_views) (Loaded "probe00")
           (Some probe00_notch) probe00_conditioned "AP0" eq_refl Hids Hdead).
Defined.

Lemma notch_file_changes_rec_final_only_witness :
  condition (SI := probe00_views) (Loaded "probe00") (Some probe00_notch)
    = Some probe00_conditioned ∧
  ∃ c0 : conditioned view,
    condition (SI := probe00_views) (Loaded "probe00") None = Some c0 ∧
    rec_final c0 = rec_destriped probe00_conditioned.
Proof.
  split; [reflexivity|].
  destruct (notch_file_changes_rec_final_only (SI := probe00_views) (Loaded "probe00")
              (Some probe00_notch) probe00_conditioned eq_refl) as (c0 & Hc0 & Hfinal & _).
  by exists c0.
Defined.

End ConditioningFacts.

(** ** Digital synchronisation pulses *)
Module SyncFacts.
Import Py PyFacts Numpy Sync Examples.


Lemma digit_value_range (c : ascii) (d : Z) : digit_value c = Some d → (0 ≤ d ≤ 9)%Z.
Proof. unfold digit_value. case_decide; [|done]. intros [= <-]. lia. Qed.

(** X7: the channel read from the name of a line is a single digit: no
    line is ever matched against a channel above 9. *)
Theorem line_channel_below_ten (ch_name : string) (d : Z) :
  int_of_last ch_name = Ok d → (0 ≤ d ≤ 9)%Z.
Proof.
  unfold int_of_last. destruct (last _) as [c|]; [|done].
  destruct (digit_value c) as [d'|] eqn:Hd; [|done].
  intros [= <-]. by eapply digit_value_range.
Qed.

Lemma prefix_is_sublist {A} (l1 l2 : list A) : l1 `prefix_of` l2 → l1 `sublist_of` l2.
Proof. intros [k ->]. by apply sublist_inserts_r. Qed.

Section Extraction.
Context {Time : Type}.

(** The mask of line 317 picks the rising edges of the channel. *)
Lemma pulses_of_Ok (sync_times : list Time) (sync_channels sync_polarities : list Z)
    (ch : Z) (nidq_pulses : list Time) :
  pulses_of sync_times sync_channels sync_polarities ch = Ok nidq_pulses →
  nidq_pulses = rising_times ch (events sync_times sync_channels sync_polarities).
Proof.
  unfold pulses_of, and_elementwise, getitem_mask, eq_elementwise.
  rewrite !length_fmap.
  case_decide as Hcp; [|done].
  case_decide as Htc; [|done].
  intros [= <-]. clear Htc. unfold rising_times, events.
  revert sync_channels sync_polarities Hcp.
  induction sync_times as [|t ts IH]; intros [|c cs] [|p ps] Hlen; simplify_eq/=; try done.
  rewrite (IH cs ps) by done.
  destruct (decide (c = ch)) as [->|Hc], (decide (p = 1)) as [->|Hp].
  - rewrite !bool_decide_eq_true_2 by done. simpl. by rewrite filter_cons_True.
  - rewrite (bool_decide_eq_false_2 (p = 1)) by done. rewrite andb_false_r.
    rewrite filter_cons_False; [done|]. simpl. by intros [? ?].
  - rewrite (bool_decide_eq_false_2 (c = ch)) by done. simpl.
    rewrite filter_cons_False; [done|]. simpl. by intros [? ?].
  - rewrite (bool_decide_eq_false_2 (c = ch)) by done. simpl.
    rewrite filter_cons_False; [done|]. simpl. by intros [? ?].
Qed.

(** Arrays of one length can be masked. *)
Lemma pulses_of_equal_lengths (sync_times : list Time)
    (sync_channels sync_polarities : list Z) (ch : Z) :
  length sync_channels = length sync_polarities → length sync_times = length sync_channels →
  ∃ nidq_pulses, pulses_of sync_times sync_channels sync_polarities ch = Ok nidq_pulses.
Proof.
  intros Hcp Htc. unfold pulses_of, and_elementwise, getitem_mask, eq_elementwise.
  rewrite !length_fmap. rewrite decide_True by done.
  rewrite length_zip_with, !length_fmap. rewrite decide_True by lia. by eexists.
Qed.

Lemma event_times_prefix (sync_times : list Time) (sync_channels sync_polarities : list Z) :
  (ev_time Time <$> events sync_times sync_channels sync_polarities) `prefix_of` sync_times.
Proof.
  unfold events. revert sync_channels sync_polarities.
  induction sync_times as [|t ts IH]; intros [|c cs] [|p ps]; simpl;
    try apply prefix_nil.
  apply prefix_cons, IH.
Qed.

(** X8: the pulses saved for a line are picked out of [sync_times] in
    their order: none is repeated, reordered or made up (line 317). *)
Theorem pulses_are_a_subsequence (sync_times : list Time)
    (sync_channels sync_polarities : list Z) (ch : Z) (nidq_pulses : list Time) :
  pulses_of sync_times sync_channels sync_polarities ch = Ok nidq_pulses →
  nidq_pulses `sublist_of` sync_times.
Proof.
  intros ->%pulses_of_Ok. unfold rising_times.
  trans (ev_time Time <$> events sync_times sync_channels sync_polarities).
  - apply fmap_sublist, sublist_filter.
  - apply prefix_is_sublist, event_times_prefix.
Qed.

Section Loop.
Variable root : path.
Variable sync_times : list Time.
Variable sync_polarities sync_channels : list Z.

Lemma times_file_inj (a b : string) : times_file root a = times_file root b → a = b.
Proof.
  unfold times_file. intros H%app_inv_head. injection H as H.
  by apply append_suffix_inj in H.
Qed.

(** One pass of the body of the loop that does not raise. *)
Lemma save_line_Ok (ii : nat) (ch_name name : string) (npy npy' : gmap path (list Time)) :
  run (save_line Time root sync_times sync_polarities sync_channels ii (ch_name, name)) npy
    = (Ok tt, npy') →
  (ch_name = "imec_sync" ∧ npy' = npy) ∨
  (ch_name ≠ "imec_sync" ∧
   ∃ d, int_of_last ch_name = Ok d ∧
        npy' = <[times_file root name :=
                   rising_times d (events sync_times sync_channels sync_polarities)]> npy).
Proof.
  unfold save_line. case_decide as Hch.
  - rewrite run_ret. intros [= <-]. by left.
  - intros H. right. split; [done|].
    rewrite run_bind in H. unfold lift in H. simpl in H.
    destruct (int_of_last ch_name) as [d|err] eqn:Hd; [|done].
    destruct (pulses_of sync_times sync_channels sync_polarities d) as [p|err] eqn:Hp; [|done].
    simpl in H. injection H as <-. exists d. split; [done|].
    by rewrite (pulses_of_Ok _ _ _ _ _ Hp).
Qed.

#[local] Abbreviation body := (save_line Time root sync_times sync_polarities sync_channels).

(** A file other than those of the lines the loop saves is left alone,
    however the loop ends. *)
Lemma extract_loop_frame (wiring : list (string * string)) (start : nat)
    (npy0 npy1 : gmap path (list Time)) (r : result unit) (file : path) :
  run (for_enumerate body start wiring) npy0 = (r, npy1) →
  (∀ ch_name name : string,
     (ch_name, name) ∈ wiring → ch_name ≠ "imec_sync" → file ≠ times_file root name) →
  npy1 !! file = npy0 !! file.
Proof.
  revert start npy0. induction wiring as [|[ch0 name0] wiring IH]; intros start npy0 Hrun Hfile.
  - by injection Hrun as <- <-.
  - rewrite run_for_cons in Hrun.
    destruct (run (body start (ch0, name0)) npy0) as [r0 npy'] eqn:Hline.
    assert (npy' !! file = npy0 !! file) as Hhead.
    { unfold save_line in Hline. case_decide as Hch.
      - by injection Hline as <- <-.
      - rewrite run_bind in Hline. unfold lift in Hline. simpl in Hline.
        destruct (int_of_last ch0) as [d|e]; [|by injection Hline as <- <-].
        destruct (pulses_of sync_times sync_channels sync_polarities d) as [p|e];
          simpl in Hline; injection Hline as <- <-; [|done].
        rewrite lookup_insert_ne; [done|]. intros Heq. symmetry in Heq. revert Heq.
        apply (Hfile ch0 name0); [|done]. apply elem_of_cons. by left. }
    destruct r0 as [[]|e].
    + rewrite <- Hhead. eapply IH; [done|].
      intros ch' name' Hin'. apply Hfile. apply elem_of_cons. by right.
    + by injection Hrun as <- <-.
Qed.

(** The file of a logical name holds what the last line of that name that
    is not skipped has saved. *)
Lemma extract_loop_last (before after : list (string * string)) (ch_name name : string)
    (start : nat) (npy0 npy1 : gmap path (list Time)) :
  ch_name ≠ "imec_sync" →
  (∀ ch' : string, (ch', name) ∈ after → ch' = "imec_sync") →
  run (for_enumerate body start (before ++ (ch_name, name) :: after)) npy0 = (Ok tt, npy1) →
  ∃ d : Z, int_of_last ch_name = Ok d ∧
    npy1 !! times_file root name
    = Some (rising_times d (events sync_times sync_channels sync_polarities)).
Proof.
  intros Hch Hafter. rewrite run_for_app.
  destruct (run (for_enumerate body start before) npy0) as [[[]|e] npy_b]; [|done].
  rewrite run_for_cons.
  destruct (run (body _ (ch_name, name)) npy_b) as [[[]|e] npy_l] eqn:Hline; [|done].
  apply save_line_Ok in Hline as [[? _]|(_ & d & Hd & ->)]; [done|].
  intros Hrest. exists d. split; [done|].
  rewrite (extract_loop_frame _ _ _ _ _ _ Hrest).
  - by rewrite lookup_insert_eq.
  - intros ch' name' Hin Hch' Heq%times_file_inj. subst name'.
    by apply Hch', Hafter.
Qed.

(** X9: a line whose name does not end in a digit ends the extraction
    with the exception of [int], after the files of the lines before it
    were written; the lines after it get no file. *)
Theorem bad_line_name_stops_extraction (before after : list (string * string))
    (ch_name name : string) (err : exn) (npy0 npy_b : gmap path (list Time)) :
  ch_name ≠ "imec_sync" →
  int_of_last ch_name = Raise err →
  run (extract_sync root before sync_times sync_polarities sync_channels) npy0 = (Ok tt, npy_b) →
  run (extract_sync root (before ++ (ch_name, name) :: after)
         sync_times sync_polarities sync_channels) npy0 = (Raise err, npy_b).
Proof.
  intros Hch Hint Hbefore. unfold extract_sync in *. rewrite run_for_app, Hbefore.
  rewrite run_for_cons. unfold save_line. rewrite decide_False by done.
  rewrite run_bind. unfold lift. simpl. by rewrite Hint.
Qed.

(** The body of the loop does the same to any two sets of files. *)
Lemma save_line_any (ii ii' : nat) (item : string * string) (a a' b : gmap path (list Time)) :
  run (body ii item) a = (Ok tt, a') →
  (a' = a ∧ run (body ii' item) b = (Ok tt, b)) ∨
  (∃ nidq_pulses : list Time,
     a' = <[times_file root item.2 := nidq_pulses]> a ∧
     run (body ii' item) b = (Ok tt, <[times_file root item.2 := nidq_pulses]> b)).
Proof.
  destruct item as [ch_name name]. unfold save_line. case_decide as Hch.
  - rewrite !run_ret. intros [= <-]. by left.
  - rewrite !run_bind. unfold lift. simpl.
    destruct (int_of_last ch_name) as [d|err]; [|done].
    destruct (pulses_of sync_times sync_channels sync_polarities d) as [p|err]; [|done].
    simpl. intros [= <-]. right. by exists p.
Qed.

(** Two runs of the loop from different files: a file is written the same
    by both, or left alone by both. *)
Lemma extract_loop_parallel (wiring : list (string * string)) (start start' : nat)
    (a a' b : gmap path (list Time)) :
  run (for_enumerate body start wiring) a = (Ok tt, a') →
  ∃ b' : gmap path (list Time),
    run (for_enumerate body start' wiring) b = (Ok tt, b') ∧
    ∀ file : path,
      b' !! file = a' !! file ∨ (b' !! file = b !! file ∧ a' !! file = a !! file).
Proof.
  revert start start' a b. induction wiring as [|item wiring IH];
    intros start start' a b Hrun.
  - injection Hrun as <-. exists b. split; [done|]. intros file. by right.
  - rewrite run_for_cons in Hrun.
    destruct (run (body start item) a) as [[[]|e] a1] eqn:Hline; [|done].
    destruct (save_line_any start start' item a a1 b Hline) as [[-> Hb1]|(p & -> & Hb1)].
    + destruct (IH _ (S start') _ b Hrun) as (b' & Hb & Hfiles).
      exists b'. split; [|done]. by rewrite run_for_cons, Hb1.
    + destruct (IH _ (S start') _ (<[times_file root item.2 := p]> b) Hrun)
        as (b' & Hb & Hfiles).
      exists b'. split; [by rewrite run_for_cons, Hb1|].
      intros file. destruct (Hfiles file) as [?|[Hb' Ha']]; [by left|].
      destruct (decide (file = times_file root item.2)) as [->|Hne].
      * left. by rewrite Hb', Ha', !lookup_insert_eq.
      * right. by rewrite Hb', Ha', !lookup_insert_ne.
Qed.

(** X10: the extraction is repeated for every probe of a session (it is
    part of the body of the probe loop); a repetition over the same arrays
    ends normally and leaves every file as the first one wrote it. *)
Theorem extraction_is_idempotent (wiring : list (string * string))
    (npy0 npy1 : gmap path (list Time)) :
  run (extract_sync root wiring sync_times sync_polarities sync_channels) npy0 = (Ok tt, npy1) →
  run (extract_sync root wiring sync_times sync_polarities sync_channels) npy1 = (Ok tt, npy1).
Proof.
  intros Hrun. destruct (extract_loop_parallel _ _ 0%nat _ _ npy1 Hrun) as (b' & Hb & Hfiles).
  unfold extract_sync. rewrite Hb. f_equal. apply map_eq. intros file.
  destruct (Hfiles file) as [?|[? _]]; done.
Qed.

(** X11: with the three arrays of one length, and every line other than
    [imec_sync] named with a digit at its end, the extraction runs to its
    end. *)
Theorem extraction_succeeds (wiring : list (string * string))
    (npy0 : gmap path (list Time)) :
  length sync_channels = length sync_polarities → length sync_times = length sync_channels →
  (∀ ch_name name : string,
     (ch_name, name) ∈ wiring → ch_name ≠ "imec_sync" → ∃ d : Z, int_of_last ch_name = Ok d) →
  ∃ npy1 : gmap path (list Time),
    run (extract_sync root wiring sync_times sync_polarities sync_channels) npy0 = (Ok tt, npy1).
Proof.
  intros Hcp Htc. unfold extract_sync. generalize 0%nat. revert npy0.
  induction wiring as [|[ch_name name] wiring IH]; intros npy0 start Hnames.
  - by eexists.
  - rewrite run_for_cons.
    assert (∃ npy', run (body start (ch_name, name)) npy0 = (Ok tt, npy')) as [npy' ->].
    { unfold save_line. case_decide as Hch; [by eexists|].
      destruct (Hnames ch_name name) as [d Hd]; [apply elem_of_cons; by left|done|].
      destruct (pulses_of_equal_lengths sync_times sync_channels sync_polarities d Hcp Htc)
        as [p Hp].
      rewrite !run_bind. unfold lift. simpl. rewrite Hd, Hp. by eexists. }
    apply IH. intros ch' name' Hin. apply (Hnames ch' name'). apply elem_of_cons. by right.
Qed.

End Loop.


End Extraction.


(** The skip of line 315 goes by the key of the wiring: a reference line
    that the wiring lists under its pin gets its file like any other. *)
Lemma reference_line_by_pin_is_saved :
  run (extract_sync session_root wiring_by_pin sync_times sync_polarities sync_channels) ∅
  = (Ok tt, {[ times_file session_root "left_camera" := [20; 50];
               times_file session_root "imec_sync" := [10] ]}).
Proof. reflexivity. Qed.


Lemma line_channel_below_ten_witness :
  int_of_last "P0.2" = Ok 2 ∧ (0 ≤ 2 ≤ 9)%Z.
Proof.
  split; [reflexivity|]. exact (line_channel_below_ten "P0.2" 2 eq_refl).
Defined.

Lemma pulses_are_a_subsequence_witness :
  pulses_of sync_times sync_channels sync_polarities 1 = Ok [20; 50] ∧
  [20; 50] `sublist_of` sync_times.
Proof.
  split; [reflexivity|].
  exact (pulses_are_a_subsequence sync_times sync_channels sync_polarities 1 [20; 50] eq_refl).
Defined.

Lemma bad_line_name_stops_extraction_witness :
  run (extract_sync session_root [("P0.1", "left_camera"); ("PFI", "frame2ttl"); ("P0.2", "lick_detector")]
         sync_times sync_polarities sync_channels) ∅
  = (Raise (Raised "ValueError" "invalid literal for int() with base 10: 'I'"),
     {[ times_file session_root "left_camera" := [20; 50] ]}).
Proof.
  apply (bad_line_name_stops_extraction session_root sync_times sync_polarities sync_channels
           [("P0.1", "left_camera")] [("P0.2", "lick_detector")] "PFI" "frame2ttl").
  - discriminate.
  - reflexivity.
  - reflexivity.
Defined.

Lemma extraction_is_idempotent_witness :
  run (extract_sync session_root wiring sync_times sync_polarities sync_channels) ∅
    = (Ok tt, {[ times_file session_root "lick_detector" := [40];
                 times_file session_root "left_camera" := [20; 50] ]}) ∧
  run (extract_sync session_root wiring sync_times sync_polarities sync_channels)
      {[ times_file session_root "lick_detector" := [40];
         times_file session_root "left_camera" := [20; 50] ]}
    = (Ok tt, {[ times_file session_root "lick_detector" := [40];
                 times_file session_root "left_camera" := [20; 50] ]}).
Proof.
  assert (run (extract_sync session_root wiring sync_times sync_polarities sync_channels) ∅
          = (Ok tt, {[ times_file session_root "lick_detector" := [40];
                       times_file session_root "left_camera" := [20; 50] ]})) as Hrun
    by reflexivity.
  split; [exact Hrun|].
  exact (extraction_is_idempotent session_root sync_times sync_polarities sync_channels
           wiring ∅ _ Hrun).
Defined.

Lemma extraction_succeeds_witness :
  ∃ npy1 : gmap path (list Z),
    run (extract_sync session_root wiring sync_times sync_polarities sync_channels) ∅
    = (Ok tt, npy1).
Proof.
  apply (extraction_succeeds session_root sync_times sync_polarities sync_channels wiring ∅).
  - reflexivity.
  - reflexivity.
  - intros ch_name name Hin Hch. unfold wiring in Hin.
    rewrite !elem_of_cons, elem_of_nil in Hin.
    destruct Hin as [[= -> ->]|[[= -> ->]|[[= -> ->]|[]]]]; [done|by exists 1|by exists 2].
Defined.

End SyncFacts.

(** ** The probe loop and the session marker *)
Module OrchestratorFacts.
Import Py Orchestrator Examples.

Lemma keeps_step (P : fs → Prop) (op : fs → result unit * fs) (f f' : fs) (r : result unit) :
  keeps P op → op f = (r, f') → P f → P f'.
Proof. intros Hk Hop HP. specialize (Hk f HP). by rewrite Hop in Hk. Qed.

(** A fact about the disk, carried along the operations that led to it. *)
Ltac frame :=
  first
    [ assumption
    | match goal with
      | E : ?op ?f = (?r, ?f') |- ?P ?f' =>
          apply (keeps_step P op f f' r); [ auto | exact E | frame ]
      end ].

(** Closes one branch of an iteration: the state the probe is left in and
    the calls made. *)
Ltac summarise st new :=
  exists st, new; simpl;
  rewrite ?list_insert_insert_eq, <- ?app_assoc; simpl;
  split_and!;
  [ done
  | done
  | done
  | by eexists
  | first [ done | by left | by right ]
  | done
  | let P := fresh "P" in
    intros P (? & ? & ? & ? & ?) (? & ? & ?) ?; simpl; frame ].

Section Session.
Variable SPIKE_SORTER IDENTIFIER : string.
Variable ext : collaborators.
Variable root : path.

#[local] Abbreviation process_probe := (process_probe SPIKE_SORTER IDENTIFIER ext root).
#[local] Abbreviation alf_path := (alf_path IDENTIFIER root).
#[local] Abbreviation output_folder := (output_folder SPIKE_SORTER IDENTIFIER root).
#[local] Abbreviation probe_path := (probe_path root).
#[local] Abbreviation error_log := (error_log root).
#[local] Abbreviation marker := (marker root).
#[local] Abbreviation calls_of := (calls_of SPIKE_SORTER IDENTIFIER root).
#[local] Abbreviation kept_locally := (kept_locally SPIKE_SORTER IDENTIFIER root).

Lemma process_probe_skip (i : nat) (this_probe : string) (s : state) :
  isdir (alf_path this_probe) (disk s) = true →
  run (process_probe i this_probe) s
  = (Ok tt, State (disk s) (<[i := true]> (probe_done s)) (<[i := done]> (probe_states s))
              (calls s)).
Proof.
  intros Half. unfold process_probe, Orchestrator.process_probe. simpl. rewrite Half. done.
Qed.

(** One iteration, whatever its collaborators do. *)
Lemma process_probe_summary (i : nat) (this_probe : string) (s s' : state) (r : result unit) :
  run (process_probe i this_probe) s = (r, s') →
  ∃ (st : option probe_state) (new : list call),
    probe_states s' = from_option (λ x, <[i := x]> (probe_states s)) (probe_states s) st ∧
    probe_done s' = (if decide (st = Some done) then <[i := true]> (probe_done s)
                     else probe_done s) ∧
    calls s' = calls s ++ new ∧
    new `prefix_of` calls_of this_probe ∧
    match r with
    | Ok _ => st = Some done ∨ st = Some sorting_failed
    | Raise _ => st ≠ Some done
    end ∧
    (isdir (alf_path this_probe) (disk s) = true → new = [] ∧ disk s' = disk s ∧ st = Some done) ∧
    (∀ P : fs → Prop,
       respected ext P → kept_locally P this_probe → P (disk s) → P (disk s')).
Proof.
  destruct (isdir (alf_path this_probe) (disk s)) eqn:Half.
  { rewrite process_probe_skip by done. intros [= <- <-].
    exists (Some done), []. simpl. rewrite app_nil_r. split_and!; try done.
    - apply prefix_nil.
    - by left. }
  unfold process_probe, Orchestrator.process_probe. simpl. rewrite Half. simpl.
  destruct (sync_pulses ext this_probe (disk s)) as [[[]|e1] f1] eqn:E1; simpl.
  2:{ intros [= <- <-]. summarise (@None probe_state) [SyncPulses this_probe]. }
  destruct (conditioning ext (probe_path this_probe) f1) as [[[]|e2] f2] eqn:E2; simpl.
  2:{ intros [= <- <-].
      summarise (Some synced) [SyncPulses this_probe; Conditioning (probe_path this_probe)]. }
  destruct (run_sorter ext (output_folder this_probe) f2) as [[[]|e3] f3] eqn:E3; simpl.
  2:{ destruct (write_text (error_log this_probe) (str e3) f3) as [[[]|e4] f4] eqn:E4; simpl.
      2:{ intros [= <- <-]. summarise (Some sorting_failed) (take 3 (calls_of this_probe)). }
      destruct (rmtree (output_folder this_probe) f4) as [[[]|e5] f5] eqn:E5; simpl.
      all: intros [= <- <-]; summarise (Some sorting_failed) (take 3 (calls_of this_probe)). }
  destruct (prepare_export ext (probe_path this_probe) f3) as [[[]|e4] f4] eqn:E4; simpl.
  2:{ intros [= <- <-]. summarise (Some sorted) (take 4 (calls_of this_probe)). }
  destruct (isdir (alf_path this_probe) f4) eqn:Half4; simpl.
  - destruct (export_alf ext (alf_path this_probe) f4) as [[[]|e5] f5] eqn:E5; simpl.
    + intros [= <- <-]. summarise (Some done) (calls_of this_probe).
    + intros [= <- <-]. summarise (Some sorted) (calls_of this_probe).
  - destruct (os_mkdir (alf_path this_probe) f4) as [[[]|e5] f5] eqn:E5; simpl.
    2:{ intros [= <- <-]. summarise (Some sorted) (take 4 (calls_of this_probe)). }
    destruct (export_alf ext (alf_path this_probe) f5) as [[[]|e6] f6] eqn:E6; simpl.
    + intros [= <- <-]. summarise (Some done) (calls_of this_probe).
    + intros [= <- <-]. summarise (Some sorted) (calls_of this_probe).
Qed.


(** Paths of one session do not collide. *)
Lemma output_folder_not_above_marker (this_probe : string) :
  ¬ output_folder this_probe `prefix_of` marker.
Proof.
  intros H%prefix_length. revert H.
  unfold output_folder, Orchestrator.output_folder, probe_path, Orchestrator.probe_path,
    marker, Orchestrator.marker.
  rewrite !length_app. simpl. lia.
Qed.

Lemma output_folder_not_above_alf (this_probe q : string) :
  ¬ output_folder this_probe `prefix_of` alf_path q.
Proof.
  intros H%prefix_length. revert H.
  unfold output_folder, Orchestrator.output_folder, probe_path, Orchestrator.probe_path,
    alf_path, Orchestrator.alf_path.
  rewrite !length_app. simpl. lia.
Qed.

Lemma alf_path_inj (a b : string) : alf_path a = alf_path b → a = b.
Proof.
  unfold alf_path, Orchestrator.alf_path. intros H%app_inv_head. injection H as H.
  by apply PyFacts.append_suffix_inj in H.
Qed.

Lemma probe_path_inj (a b : string) : probe_path a = probe_path b → a = b.
Proof.
  unfold probe_path, Orchestrator.probe_path. intros H%app_inv_head. by injection H.
Qed.

Lemma output_folder_inj (a b : string) : output_folder a = output_folder b → a = b.
Proof.
  unfold output_folder, Orchestrator.output_folder. intros H%app_inv_tail.
  by apply probe_path_inj.
Qed.

Lemma calls_of_disjoint (a b : string) (c : call) :
  c ∈ calls_of a → c ∈ calls_of b → a = b.
Proof.
  unfold calls_of, Orchestrator.calls_of. rewrite !elem_of_cons, !elem_of_nil.
  intros [->|[->|[->|[->|[->|[]]]]]] [H|[H|[H|[H|[H|[]]]]]]; try discriminate H;
    injection H as H;
    eauto using alf_path_inj, probe_path_inj, output_folder_inj.
Qed.

Lemma marker_kept_locally (this_probe : string) :
  kept_locally (has_file marker) this_probe.
Proof.
  unfold kept_locally, keeps, has_file. split_and!.
  - intros text f Hf. unfold write_text.
    destruct (isdir (error_log this_probe) f); simpl; [done|].
    destruct (isdir _ f); simpl; [|done].
    rewrite dom_insert_L. set_solver.
  - intros f Hf. unfold rmtree. destruct (isdir _ f); simpl.
    + apply elem_of_dom in Hf as [text Hf]. apply elem_of_dom. exists text.
      apply map_lookup_filter_Some. split; [done|]. simpl.
      apply output_folder_not_above_marker.
    + by destruct (isfile _ f).
  - intros f Hf. unfold os_mkdir. destruct (isdir _ f || isfile _ f); simpl; [done|].
    by destruct (isdir _ f).
Qed.

Lemma alf_kept_locally (q this_probe : string) :
  kept_locally (has_dir (alf_path q)) this_probe.
Proof.
  unfold kept_locally, keeps, has_dir. split_and!.
  - intros text f Hf. unfold write_text.
    destruct (isdir (error_log this_probe) f); simpl; [done|]. by destruct (isdir _ f).
  - intros f Hf. unfold rmtree. destruct (isdir _ f); simpl.
    + apply elem_of_filter. split; [|done]. apply output_folder_not_above_alf.
    + by destruct (isfile _ f).
  - intros f Hf. unfold os_mkdir. destruct (isdir _ f || isfile _ f); simpl; [done|].
    destruct (isdir _ f); simpl; [|done]. set_solver.
Qed.

#[local] Abbreviation probe_loop := (for_enumerate process_probe).

(** The loop keeps what its iterations keep. *)
Lemma loop_frame (P : fs → Prop) (probes : list string) (i : nat) (s s' : state)
    (r : result unit) :
  respected ext P → (∀ p, kept_locally P p) →
  run (probe_loop i probes) s = (r, s') → P (disk s) → P (disk s').
Proof.
  intros Hext Hloc. revert i s. induction probes as [|p probes IH]; intros i s Hrun HP.
  - by injection Hrun as <- <-.
  - rewrite PyFacts.run_for_cons in Hrun.
    destruct (run (process_probe i p) s) as [[[]|e] s1] eqn:Hit.
    + apply process_probe_summary in Hit as (st & new & _ & _ & _ & _ & _ & _ & Hframe).
      eapply IH; [done|]. by apply Hframe.
    + injection Hrun as <- <-.
      apply process_probe_summary in Hit as (st & new & _ & _ & _ & _ & _ & _ & Hframe).
      by apply Hframe.
Qed.

(** The loop leaves the entries before its start alone. *)
Lemma loop_untouched (probes : list string) (i : nat) (s s' : state) (r : result unit) :
  run (probe_loop i probes) s = (r, s') →
  length (probe_done s') = length (probe_done s) ∧
  length (probe_states s') = length (probe_states s) ∧
  ∀ j : nat, (j < i)%nat →
    probe_done s' !! j = probe_done s !! j ∧ probe_states s' !! j = probe_states s !! j.
Proof.
  revert i s. induction probes as [|p probes IH]; intros i s Hrun.
  - by injection Hrun as <- <-.
  - rewrite PyFacts.run_for_cons in Hrun.
    destruct (run (process_probe i p) s) as [r1 s1] eqn:Hit.
    apply process_probe_summary in Hit as (st & new & Hst & Hdone & _).
    assert (length (probe_done s1) = length (probe_done s) ∧
            length (probe_states s1) = length (probe_states s) ∧
            ∀ j : nat, (j < i)%nat →
              probe_done s1 !! j = probe_done s !! j ∧
              probe_states s1 !! j = probe_states s !! j) as (Hl1 & Hl2 & Hun).
    { rewrite Hst, Hdone. split_and!.
      - case_decide; by rewrite ?length_insert.
      - destruct st; simpl; by rewrite ?length_insert.
      - intros j Hj. split.
        + case_decide; [|done]. by rewrite list_lookup_insert_ne by lia.
        + destruct st; simpl; [|done]. by rewrite list_lookup_insert_ne by lia. }
    destruct r1 as [[]|e].
    + destruct (IH _ _ Hrun) as (Hl1' & Hl2' & Hun').
      split_and!; [congruence..|].
      intros j Hj. destruct (Hun' j ltac:(lia)) as [-> ->]. by apply Hun.
    + by injection Hrun as <- <-.
Qed.


Lemma visited_consistent (s : state) (j : nat) : visited s j → consistent s j.
Proof.
  intros [[Hd Hs]|[Hd Hs]].
  - by exists true, done.
  - exists false, sorting_failed. split_and!; [done..|]. split; discriminate.
Qed.

Lemma pending_consistent (s : state) (j : nat) : pending s j → consistent s j.
Proof.
  intros [Hd Hs]. exists false, not_started. split_and!; [done..|]. split; discriminate.
Qed.

(** Entry [i] after the iteration on it. *)
Lemma entry_after_iteration (i : nat) (s s1 : state) (st : option probe_state) :
  probe_states s1 = from_option (λ x, <[i := x]> (probe_states s)) (probe_states s) st →
  probe_done s1 = (if decide (st = Some done) then <[i := true]> (probe_done s)
                   else probe_done s) →
  pending s i →
  probe_states s1 !! i = Some (default not_started st) ∧
  probe_done s1 !! i = Some (bool_decide (st = Some done)) ∧
  ∀ j : nat, j ≠ i →
    probe_done s1 !! j = probe_done s !! j ∧ probe_states s1 !! j = probe_states s !! j.
Proof.
  intros -> -> [Hd Hs].
  assert (i < length (probe_done s))%nat by (by eapply lookup_lt_Some).
  assert (i < length (probe_states s))%nat by (by eapply lookup_lt_Some).
  split_and!.
  - destruct st as [x|]; simpl; [|done]. by apply list_lookup_insert_eq.
  - case_decide.
    + rewrite bool_decide_eq_true_2 by done. by apply list_lookup_insert_eq.
    + by rewrite bool_decide_eq_false_2.
  - intros j Hj. split.
    + case_decide; [|done]. by apply list_lookup_insert_ne.
    + destruct st; simpl; [|done]. by apply list_lookup_insert_ne.
Qed.

(** The loop from entry [i] on: every entry it completes is done or failed
    in the sorter; a loop that raises leaves an entry that is not done. *)
Lemma loop_invariant (probes : list string) (i : nat) (s s' : state) (r : result unit) :
  run (probe_loop i probes) s = (r, s') →
  (∀ j : nat, (j < i)%nat → visited s j) →
  (∀ j : nat, (i ≤ j < i + length probes)%nat → pending s j) →
  (∀ j : nat, (j < i + length probes)%nat → consistent s' j) ∧
  match r with
  | Ok _ => ∀ j : nat, (j < i + length probes)%nat → visited s' j
  | Raise _ => ∃ (j : nat) (st : probe_state),
      (j < i + length probes)%nat ∧ probe_states s' !! j = Some st ∧ st ≠ done
  end.
Proof.
  revert i s. induction probes as [|p probes IH]; intros i s Hrun Hvis Hpend.
  - injection Hrun as <- <-. simpl. rewrite Nat.add_0_r.
    split; [|done]. intros j Hj. by apply visited_consistent, Hvis.
  - rewrite PyFacts.run_for_cons in Hrun. simpl length in *.
    destruct (run (process_probe i p) s) as [r1 s1] eqn:Hit.
    apply process_probe_summary in Hit as (st & new & Hst & Hdone & _ & _ & Hr1 & _).
    destruct (entry_after_iteration i s s1 st Hst Hdone) as (Hsi & Hdi & Hother).
    { apply Hpend. lia. }
    destruct r1 as [[]|e].
    + replace (i + S (length probes))%nat with (S i + length probes)%nat by lia.
      apply (IH (S i) s1 Hrun).
      * intros j Hj. destruct (decide (j = i)) as [->|Hne].
        -- unfold visited. rewrite Hsi, Hdi.
           destruct Hr1 as [-> | ->]; simpl; [by left | by right].
        -- unfold visited. destruct (Hother j Hne) as [-> ->]. apply Hvis. lia.
      * intros j Hj. unfold pending.
        destruct (Hother j ltac:(lia)) as [-> ->]. apply Hpend. lia.
    + injection Hrun as <- <-. split.
      * intros j Hj. destruct (decide (j = i)) as [->|Hne].
        -- exists false, (default not_started st). rewrite Hsi, Hdi.
           rewrite bool_decide_eq_false_2 by done. split_and!; [done..|].
           split; [discriminate|]. intros Hst'. destruct st as [x|]; simpl in *; by subst.
        -- unfold consistent. destruct (Hother j Hne) as [-> ->].
           destruct (decide (j < i)%nat).
           ++ by apply visited_consistent, Hvis.
           ++ apply pending_consistent, Hpend. lia.
      * exists i, (default not_started st). split_and!; [lia|done|].
        intros Hst'. destruct st as [x|]; simpl in *; by subst.
Qed.


#[local] Abbreviation session := (session SPIKE_SORTER IDENTIFIER ext root).
#[local] Abbreviation clear_marker := (clear_marker root).

Lemma session_unfold (probes : list string) (f : fs) :
  session probes f
  = match run (probe_loop 0 probes)
            (State f (replicate (length probes) false)
                     (replicate (length probes) not_started) []) with
    | (Ok _, s') => run (clear_marker probes) s'
    | (Raise err, s') => (Raise err, s')
    end.
Proof. done. Qed.

Lemma run_clear_marker (probes : list string) (s : state) :
  run (clear_marker probes) s
  = if decide (Numpy.sum_bool (probe_done s) = length probes)
    then let '(r, f) := os_remove marker (disk s) in
         (r, State f (probe_done s) (probe_states s) (calls s))
    else (Ok tt, s).
Proof.
  unfold clear_marker, Orchestrator.clear_marker. simpl. by case_decide.
Qed.

Lemma os_remove_present (p : path) (f : fs) :
  has_file p f → os_remove p f = (Ok tt, FS (dirs f) (delete p (files f))).
Proof.
  intros Hp. unfold os_remove, isfile. by rewrite bool_decide_eq_true_2.
Qed.

Lemma initial_pending (probes : list string) (f : fs) (j : nat) :
  (j < length probes)%nat →
  pending (State f (replicate (length probes) false)
                   (replicate (length probes) not_started) []) j.
Proof. intros Hj. split; simpl; by apply lookup_replicate_2. Qed.

Lemma consistent_Forall2 (s : state) (n : nat) :
  length (probe_done s) = n → length (probe_states s) = n →
  (∀ j : nat, (j < n)%nat → consistent s j) →
  Forall2 (λ (b : bool) (st : probe_state), b = true ↔ st = done)
          (probe_done s) (probe_states s).
Proof.
  intros Hd Hs Hc. apply Forall2_same_length_lookup. split; [congruence|].
  intros j b st Hb Hst.
  destruct (Hc j) as (b' & st' & Hb' & Hst' & Hiff).
  { apply lookup_lt_Some in Hb. lia. }
  congruence.
Qed.

(** The session as a whole: the marker goes exactly when every probe is
    done. *)
Lemma session_marker (probes : list string) (f : fs) (r : result unit) (s1 : state) :
  has_file marker f → respected ext (has_file marker) →
  session probes f = (r, s1) →
  (¬ has_file marker (disk s1) ↔ Forall (λ st, st = done) (probe_states s1)) ∧
  Forall2 (λ (b : bool) (st : probe_state), b = true ↔ st = done)
          (probe_done s1) (probe_states s1) ∧
  length (probe_states s1) = length probes ∧
  (r = Ok tt → Forall terminal (probe_states s1)) ∧
  (∀ err : exn, r = Raise err → has_file marker (disk s1)).
Proof.
  intros Hmark Hext. rewrite session_unfold.
  destruct (run (probe_loop 0 probes) _) as [r0 s'] eqn:Hloop.
  pose proof (loop_frame _ _ _ _ _ _ Hext marker_kept_locally Hloop Hmark) as Hmark'.
  destruct (loop_untouched _ _ _ _ _ Hloop) as (Hld & Hls & _).
  simpl in Hld, Hls. rewrite ?length_replicate in Hld. rewrite ?length_replicate in Hls.
  destruct (loop_invariant _ _ _ _ _ Hloop) as [Hcons Hres].
  { intros j Hj. lia. }
  { intros j Hj. apply initial_pending. lia. }
  simpl in Hcons, Hres.
  destruct r0 as [[]|e].
  - rewrite run_clear_marker. case_decide as Hall.
    + rewrite <- Hld in Hall. apply NumpyFacts.sum_bool_all in Hall.
      rewrite os_remove_present by done.
      intros [= <- <-]. simpl.
      assert (Forall (λ st, st = done) (probe_states s')) as Hdone.
      { apply Forall_lookup. intros j st Hst.
        destruct (Hres j) as [[_ Hs]|[Hd _]].
        - apply lookup_lt_Some in Hst. lia.
        - congruence.
        - rewrite Forall_lookup in Hall. by apply Hall in Hd. }
      split_and!.
      * split; [done|]. intros _. unfold has_file. simpl. rewrite dom_delete_L.
        intros [_ Hm]%elem_of_difference. by apply Hm, elem_of_singleton.
      * by apply (consistent_Forall2 _ (length probes)).
      * done.
      * intros _. eapply Forall_impl; [done|]. intros st ->. by left.
      * discriminate.
    + intros [= <- <-]. split_and!.
      * split; [done|]. intros Hdone. exfalso. apply Hall.
        rewrite <- Hld. apply NumpyFacts.sum_bool_all. apply Forall_lookup. intros j b Hb.
        destruct (Hres j) as [[Hd _]|[_ Hs]].
        -- apply lookup_lt_Some in Hb. lia.
        -- congruence.
        -- rewrite Forall_lookup in Hdone. by apply Hdone in Hs.
      * by apply (consistent_Forall2 _ (length probes)).
      * done.
      * intros _. apply Forall_lookup. intros j st Hst.
        destruct (Hres j) as [[_ Hs]|[_ Hs]].
        -- apply lookup_lt_Some in Hst. lia.
        -- left. congruence.
        -- right. congruence.
      * discriminate.
  - intros [= <- <-]. split_and!.
    + split; [done|]. intros Hdone. exfalso.
      destruct Hres as (j & st & _ & Hst & Hne).
      rewrite Forall_lookup in Hdone. by apply Hdone in Hst.
    + by apply (consistent_Forall2 _ (length probes)).
    + done.
    + discriminate.
    + done.
Qed.


Lemma has_dir_isdir (d : path) (f : fs) : has_dir d f ↔ isdir d f = true.
Proof. unfold has_dir, isdir. by rewrite bool_decide_eq_true. Qed.

(** No call is made for a probe whose export directory stays on disk. *)
Lemma loop_no_calls (q : string) (probes : list string) (i : nat) (s s' : state)
    (r : result unit) (c : call) :
  respected ext (has_dir (alf_path q)) → has_dir (alf_path q) (disk s) →
  run (probe_loop i probes) s = (r, s') →
  c ∈ calls_of q → c ∈ calls s' → c ∈ calls s.
Proof.
  intros Hext Hq Hrun Hc. revert i s Hq Hrun.
  induction probes as [|p probes IH]; intros i s Hq Hrun.
  - by injection Hrun as <- <-.
  - rewrite PyFacts.run_for_cons in Hrun.
    destruct (run (process_probe i p) s) as [r1 s1] eqn:Hit.
    apply process_probe_summary in Hit
      as (st & new & _ & _ & Hcalls & [k Hnew] & _ & Hskip & Hframe).
    assert (c ∈ calls s1 → c ∈ calls s) as Hhead.
    { rewrite Hcalls. intros [Hold|Hin]%elem_of_app; [done|].
      assert (p = q) as ->.
      { apply (calls_of_disjoint _ _ c); [|done]. rewrite Hnew. apply elem_of_app. by left. }
      apply has_dir_isdir in Hq. destruct (Hskip Hq) as (-> & _).
      by apply elem_of_nil in Hin. }
    destruct r1 as [[]|e].
    + intros Hin. apply Hhead. revert Hin. eapply IH; [|done].
      apply Hframe; [done|apply alf_kept_locally|done].
    + by injection Hrun as <- <-.
Qed.

(** A probe whose export directory stays on disk is counted as done. *)
Lemma loop_skips (q : string) (probes : list string) (i k : nat) (s s' : state) :
  probes !! k = Some q →
  respected ext (has_dir (alf_path q)) → has_dir (alf_path q) (disk s) →
  (i + k < length (probe_done s))%nat → (i + k < length (probe_states s))%nat →
  run (probe_loop i probes) s = (Ok tt, s') →
  probe_done s' !! (i + k)%nat = Some true ∧ probe_states s' !! (i + k)%nat = Some done.
Proof.
  intros Hk Hext. revert i k s Hk.
  induction probes as [|p probes IH]; intros i k s Hk Hq Hld Hls Hrun; [done|].
  rewrite PyFacts.run_for_cons in Hrun.
  destruct k as [|k]; simpl in Hk.
  - injection Hk as ->. rewrite Nat.add_0_r in *.
    rewrite process_probe_skip in Hrun by (by apply has_dir_isdir).
    destruct (loop_untouched _ _ _ _ _ Hrun) as (_ & _ & Hun).
    destruct (Hun i ltac:(lia)) as [-> ->]. simpl.
    by rewrite !list_lookup_insert_eq.
  - destruct (run (process_probe i p) s) as [[[]|e] s1] eqn:Hit; [|done].
    pose proof (loop_untouched [p] i s s1 (Ok tt)) as Hlen.
    rewrite PyFacts.run_for_cons, Hit in Hlen. destruct (Hlen eq_refl) as (Hld1 & Hls1 & _).
    apply process_probe_summary in Hit as (st & new & _ & _ & _ & _ & _ & _ & Hframe).
    replace (i + S k)%nat with (S i + k)%nat by lia.
    apply (IH (S i) k s1); [done| |lia|lia|done].
    apply Hframe; [done|apply alf_kept_locally|done].
Qed.

Lemma clear_marker_fields (probes : list string) (s s1 : state) (r : result unit) :
  run (clear_marker probes) s = (r, s1) →
  probe_done s1 = probe_done s ∧ probe_states s1 = probe_states s ∧ calls s1 = calls s.
Proof.
  rewrite run_clear_marker. case_decide.
  - destruct (os_remove marker (disk s)) as [r' f']. by intros [= <- <-].
  - by intros [= <- <-].
Qed.

(** An iteration that is not skipped and whose sorter raises: [probe_done]
    is as it was, and once the sorter was called the probe is
    sorting-failed. *)
Lemma process_probe_sorter_raises (i : nat) (this_probe : string) (s s' : state)
    (r : result unit) :
  (∀ f : fs, (run_sorter ext (output_folder this_probe) f).1 ≠ Ok tt) →
  isdir (alf_path this_probe) (disk s) = false →
  run (process_probe i this_probe) s = (r, s') →
  probe_done s' = probe_done s ∧
  (RunSorter (output_folder this_probe) ∉ calls s →
   RunSorter (output_folder this_probe) ∈ calls s' →
   probe_states s' = <[i := sorting_failed]> (probe_states s)).
Proof.
  intros Hraises Half.
  unfold process_probe, Orchestrator.process_probe. simpl. rewrite Half. simpl.
  destruct (sync_pulses ext this_probe (disk s)) as [[[]|e1] f1] eqn:E1; simpl.
  2:{ intros [= <- <-]. split; [done|]. simpl. intros Hold [Hin|Hin]%elem_of_app; [done|].
      rewrite elem_of_cons, elem_of_nil in Hin. by destruct Hin as [?|[]]. }
  destruct (conditioning ext (probe_path this_probe) f1) as [[[]|e2] f2] eqn:E2; simpl.
  2:{ intros [= <- <-]. split; [done|]. simpl. rewrite <- !app_assoc. simpl.
      intros Hold [Hin|Hin]%elem_of_app; [done|].
      rewrite !elem_of_cons, elem_of_nil in Hin. by destruct Hin as [?|[?|[]]]. }
  destruct (run_sorter ext (output_folder this_probe) f2) as [[[]|e3] f3] eqn:E3; simpl.
  { exfalso. apply (Hraises f2). by rewrite E3. }
  destruct (write_text (error_log this_probe) (str e3) f3) as [[[]|e4] f4] eqn:E4; simpl.
  2:{ intros [= <- <-]. split; [done|]. simpl. intros _ _.
      by rewrite !list_insert_insert_eq. }
  destruct (rmtree (output_folder this_probe) f4) as [[[]|e5] f5] eqn:E5; simpl.
  all: intros [= <- <-]; (split; [done|]); simpl; intros _ _;
    by rewrite !list_insert_insert_eq.
Qed.

(** The loop makes no call for a probe that is not among its probes. *)
Lemma loop_calls_of_others (q : string) (probes : list string) (i : nat) (s s' : state)
    (r : result unit) (c : call) :
  q ∉ probes → run (probe_loop i probes) s = (r, s') →
  c ∈ calls_of q → c ∈ calls s' → c ∈ calls s.
Proof.
  intros Hq Hrun Hc. revert i s Hrun.
  induction probes as [|p probes IH]; intros i s Hrun.
  - by injection Hrun as <- <-.
  - apply not_elem_of_cons in Hq as [Hne Hq].
    rewrite PyFacts.run_for_cons in Hrun.
    destruct (run (process_probe i p) s) as [r1 s1] eqn:Hit.
    apply process_probe_summary in Hit as (st & new & _ & _ & Hcalls & [k Hnew] & _).
    assert (c ∈ calls s1 → c ∈ calls s) as Hhead.
    { rewrite Hcalls. intros [Hold|Hin]%elem_of_app; [done|]. exfalso. apply Hne.
      symmetry. apply (calls_of_disjoint _ _ c); [|done].
      rewrite Hnew. apply elem_of_app. by left. }
    destruct r1 as [[]|e].
    + intros Hin. apply Hhead. revert Hin. by eapply IH.
    + by injection Hrun as <- <-.
Qed.

(** A probe for which the sorter was called, and raised: the loop leaves it
    not done and sorting-failed. *)
Lemma loop_sorter_raised (p : string) (probes : list string) (i k : nat) (s s' : state)
    (r : result unit) :
  NoDup probes → probes !! k = Some p →
  (∀ f : fs, (run_sorter ext (output_folder p) f).1 ≠ Ok tt) →
  run (probe_loop i probes) s = (r, s') →
  RunSorter (output_folder p) ∉ calls s → RunSorter (output_folder p) ∈ calls s' →
  probe_done s !! (i + k)%nat = Some false → (i + k < length (probe_states s))%nat →
  probe_done s' !! (i + k)%nat = Some false ∧
  probe_states s' !! (i + k)%nat = Some sorting_failed.
Proof.
  intros Hnd Hk Hraises. revert i k s Hnd Hk.
  induction probes as [|q probes IH]; intros i k s Hnd Hk Hrun Hold Hnew Hnot Hlen; [done|].
  apply NoDup_cons in Hnd as [Hfresh Hnd].
  rewrite PyFacts.run_for_cons in Hrun.
  destruct (run (process_probe i q) s) as [r1 s1] eqn:Hit.
  assert (RunSorter (output_folder p) ∈ calls_of p) as Hcall.
  { do 2 apply list_elem_of_further. apply elem_of_cons. by left. }
  destruct k as [|k]; simpl in Hk.
  - injection Hk as ->. rewrite Nat.add_0_r in *.
    destruct (isdir (alf_path p) (disk s)) eqn:Half.
    { exfalso. rewrite process_probe_skip in Hit by done. injection Hit as <- <-.
      apply Hold. by apply (loop_calls_of_others p probes (S i) _ s' r _ Hfresh Hrun Hcall). }
    destruct (process_probe_sorter_raises i p s s1 r1 Hraises Half Hit) as [Hdone Hstate].
    assert (RunSorter (output_folder p) ∈ calls s1) as Hnew1.
    { destruct r1 as [[]|e]; [|by injection Hrun as <- <-].
      by apply (loop_calls_of_others p probes (S i) s1 s' r _ Hfresh Hrun Hcall). }
    specialize (Hstate Hold Hnew1).
    assert (probe_done s' !! i = probe_done s1 !! i ∧
            probe_states s' !! i = probe_states s1 !! i) as [-> ->].
    { destruct r1 as [[]|e]; [|by injection Hrun as <- <-].
      apply loop_untouched in Hrun as (_ & _ & Hun). apply (Hun i). lia. }
    rewrite Hdone, Hstate. split; [done|]. by apply list_lookup_insert_eq.
  - assert (q ≠ p) as Hne.
    { intros ->. apply Hfresh. by eapply list_elem_of_lookup_2. }
    pose proof Hit as Hsum.
    apply process_probe_summary in Hsum as (st & new & Hst & Hdone & Hcalls & [j Hpre] & _).
    assert (RunSorter (output_folder p) ∉ calls s1) as Hold1.
    { rewrite Hcalls. intros [?|Hin]%elem_of_app; [done|]. apply Hne.
      apply (calls_of_disjoint _ _ (RunSorter (output_folder p))); [|done].
      rewrite Hpre. apply elem_of_app. by left. }
    destruct r1 as [[]|e]; [|by injection Hrun as <- <-].
    replace (i + S k)%nat with (S i + k)%nat in * by lia.
    apply (IH (S i) k s1); [done|done|done|done|done| |].
    + rewrite Hdone. case_decide; [|done]. by rewrite list_lookup_insert_ne by lia.
    + rewrite Hst. destruct st; simpl; by rewrite ?length_insert.
Qed.

(** C1 (amended): the marker of a session is deleted exactly when every
    enumerated probe is done, that is processed to the end or skipped as
    already processed, which is when [probe_done] holds throughout.  A
    probe whose sorter raised does not count: it is left not done and
    sorting-failed, whether or not the handler lets the loop go on, and the
    marker stays; so does the marker of a session that ends in an
    exception. *)
Theorem marker_cleared_iff_all_done (probes : list string) (f : fs) (r : result unit)
    (s1 : state) :
  has_file marker f → respected ext (has_file marker) →
  session probes f = (r, s1) →
  (¬ has_file marker (disk s1) ↔ Forall (λ st, st = done) (probe_states s1)) ∧
  (¬ has_file marker (disk s1) ↔ Forall (λ b : bool, b = true) (probe_done s1)) ∧
  Forall2 (λ (b : bool) (st : probe_state), b = true ↔ st = done)
          (probe_done s1) (probe_states s1) ∧
  length (probe_states s1) = length probes ∧
  (r = Ok tt → Forall terminal (probe_states s1)) ∧
  (∀ err : exn, r = Raise err → has_file marker (disk s1)) ∧
  (∀ (i : nat) (p : string),
     NoDup probes → probes !! i = Some p →
     (∀ f' : fs, (run_sorter ext (output_folder p) f').1 ≠ Ok tt) →
     RunSorter (output_folder p) ∈ calls s1 →
     probe_done s1 !! i = Some false ∧
     probe_states s1 !! i = Some sorting_failed ∧
     has_file marker (disk s1)).
Proof.
  intros Hmark Hext Hses.
  destruct (session_marker probes f r s1 Hmark Hext Hses)
    as (Hiff & Hagree & Hlen & Hend & Hraise).
  assert (¬ has_file marker (disk s1) ↔ Forall (λ b : bool, b = true) (probe_done s1))
    as Hiff'.
  { rewrite Hiff. split.
    - intros Hdone. apply Forall_lookup. intros j b Hb.
      destruct (Forall2_lookup_l _ _ _ _ _ Hagree Hb) as (st & Hst & Hbst).
      apply Hbst. rewrite Forall_lookup in Hdone. by apply (Hdone j).
    - intros Hdone. apply Forall_lookup. intros j st Hst.
      destruct (Forall2_lookup_r _ _ _ _ _ Hagree Hst) as (b & Hb & Hbst).
      apply Hbst. rewrite Forall_lookup in Hdone. by apply (Hdone j). }
  split_and!; [done..|].
  intros i p Hnd Hi Hraises Hcalled.
  assert (i < length probes)%nat as Hlt by (by eapply lookup_lt_Some).
  assert (probe_done s1 !! i = Some false ∧ probe_states s1 !! i = Some sorting_failed)
    as [Hnot Hfailed].
  { rewrite session_unfold in Hses.
    destruct (run (probe_loop 0 probes) _) as [r0 s'] eqn:Hloop.
    assert (probe_done s1 = probe_done s' ∧ probe_states s1 = probe_states s' ∧
            calls s1 = calls s') as (-> & -> & Hcalls).
    { destruct r0 as [[]|e]; [|by injection Hses as <- <-].
      by apply clear_marker_fields in Hses. }
    rewrite Hcalls in Hcalled.
    apply (loop_sorter_raised p probes 0 i _ s' r0 Hnd Hi Hraises Hloop); simpl.
    - apply not_elem_of_nil.
    - done.
    - by apply lookup_replicate_2.
    - by rewrite length_replicate. }
  split_and!; [done..|].
  destruct (decide (marker ∈ dom (files (disk s1)))) as [?|Hgone]; [done|].
  exfalso. apply Hiff' in Hgone. rewrite Forall_lookup in Hgone.
  by apply Hgone in Hnot.
Qed.

(** C3: in a session run again after a partial run, no collaborator is
    called for a probe whose export directory exists (neither the
    conditioning nor the sorter), the probe is counted as done when the loop
    reaches the end, and the marker is deleted only if every probe is in a
    terminal state. *)
Theorem resume_skips_done_probes (probes : list string) (f : fs) (r : result unit)
    (s1 : state) :
  has_file marker f → respected ext (has_file marker) →
  (∀ q : string, q ∈ probes → has_dir (alf_path q) f →
     respected ext (has_dir (alf_path q))) →
  session probes f = (r, s1) →
  (∀ (q : string) (c : call),
     q ∈ probes → has_dir (alf_path q) f → c ∈ calls_of q → c ∉ calls s1) ∧
  (∀ (i : nat) (q : string),
     probes !! i = Some q → has_dir (alf_path q) f → r = Ok tt →
     probe_done s1 !! i = Some true ∧ probe_states s1 !! i = Some done) ∧
  (¬ has_file marker (disk s1) → Forall terminal (probe_states s1)).
Proof.
  intros Hmark Hext Hdirs Hses. split_and!.
  - intros q c Hq Hdir Hc Hin. rewrite session_unfold in Hses.
    destruct (run (probe_loop 0 probes) _) as [r0 s'] eqn:Hloop.
    assert (calls s1 = calls s') as Hcalls.
    { destruct r0 as [[]|e]; [|by injection Hses as <- <-].
      by apply clear_marker_fields in Hses as (_ & _ & ?). }
    rewrite Hcalls in Hin.
    assert (c ∈ @nil call) as Hnil.
    { by eapply (loop_no_calls q probes 0
                   (State f (replicate (length probes) false)
                            (replicate (length probes) not_started) []) s' r0 c);
        [apply Hdirs|..]. }
    by apply elem_of_nil in Hnil.
  - intros i q Hi Hdir ->. rewrite session_unfold in Hses.
    destruct (run (probe_loop 0 probes) _) as [[[]|e] s'] eqn:Hloop; [|done].
    apply clear_marker_fields in Hses as (-> & -> & _).
    apply lookup_lt_Some in Hi as Hlt.
    apply (loop_skips q probes 0 i
             (State f (replicate (length probes) false)
                      (replicate (length probes) not_started) []) s' Hi
             (Hdirs q (list_elem_of_lookup_2 _ _ _ Hi) Hdir));
      simpl; rewrite ?length_replicate; done.
  - intros Hgone.
    destruct (session_marker probes f r s1 Hmark Hext Hses) as (Hiff & _).
    apply Hiff in Hgone. eapply Forall_impl; [done|]. intros st ->. by left.
Qed.

Lemma dirname_error_log (this_probe : string) :
  dirname (error_log this_probe) = probe_path this_probe.
Proof.
  unfold dirname, error_log, Orchestrator.error_log. by rewrite removelast_last.
Qed.

Lemma write_text_present (p : path) (text : string) (f : fs) :
  ¬ has_dir p f → has_dir (dirname p) f →
  write_text p text f = (Ok tt, FS (dirs f) (<[p := text]> (files f))).
Proof.
  intros Hp Hd. unfold write_text.
  rewrite (proj1 (has_dir_isdir _ _) Hd).
  by rewrite (not_true_is_false _ (λ H, Hp (proj2 (has_dir_isdir _ _) H))).
Qed.

Lemma rmtree_present (d : path) (f : fs) :
  has_dir d f →
  rmtree d f = (Ok tt, FS (filter (λ p, ¬ d `prefix_of` p) (dirs f))
                          (filter (λ kv, ¬ d `prefix_of` kv.1) (files f))).
Proof. intros Hd. unfold rmtree. by rewrite (proj1 (has_dir_isdir _ _) Hd). Qed.

(** A sorter that raises and leaves its output folder behind: the error is
    logged, the folder is removed, and the loop goes on with the next
    probe. *)
Lemma sorter_failure_isolated (i : nat) (this_probe : string) (rest : list string)
    (s : state) (f1 f2 f3 : fs) (err : exn) :
  isdir (alf_path this_probe) (disk s) = false →
  sync_pulses ext this_probe (disk s) = (Ok tt, f1) →
  conditioning ext (probe_path this_probe) f1 = (Ok tt, f2) →
  run_sorter ext (output_folder this_probe) f2 = (Raise err, f3) →
  has_dir (probe_path this_probe) f3 → ¬ has_dir (error_log this_probe) f3 →
  has_dir (output_folder this_probe) f3 →
  ∃ f4 : fs,
    run (probe_loop i (this_probe :: rest)) s
    = run (probe_loop (S i) rest)
          (State f4 (probe_done s) (<[i := sorting_failed]> (probe_states s))
                 (calls s ++ take 3 (calls_of this_probe))) ∧
    ¬ has_dir (output_folder this_probe) f4 ∧
    files f4 !! error_log this_probe = Some (str err).
Proof.
  intros Half E1 E2 E3 Hprobe Hlog Hout.
  exists (FS (filter (λ p, ¬ output_folder this_probe `prefix_of` p) (dirs f3))
             (filter (λ kv, ¬ output_folder this_probe `prefix_of` kv.1)
                     (<[error_log this_probe := str err]> (files f3)))).
  split_and!.
  - rewrite PyFacts.run_for_cons.
    unfold process_probe, Orchestrator.process_probe. simpl. rewrite Half. simpl.
    rewrite E1. simpl. rewrite E2. simpl. rewrite E3. simpl.
    rewrite write_text_present by (by rewrite ?dirname_error_log). simpl.
    rewrite rmtree_present by done. simpl.
    by rewrite !list_insert_insert_eq, <- !app_assoc.
  - unfold has_dir. simpl. intros [Hno _]%elem_of_filter. by apply Hno.
  - simpl. apply map_lookup_filter_Some. split.
    + by rewrite lookup_insert_eq.
    + simpl. intros Hpre. apply Hlog.
      replace (error_log this_probe) with (output_folder this_probe); [done|].
      apply prefix_length_eq; [done|].
      unfold output_folder, Orchestrator.output_folder, error_log, Orchestrator.error_log.
      rewrite !length_app. simpl. lia.
Qed.

(** A sorter that raises before its output folder exists: removing the
    folder raises in the handler, and the loop ends there, with no call made
    for the probes that follow. *)
Lemma sorter_failure_needs_folder (i : nat) (this_probe : string) (rest : list string)
    (s : state) (f1 f2 f3 : fs) (err : exn) :
  isdir (alf_path this_probe) (disk s) = false →
  sync_pulses ext this_probe (disk s) = (Ok tt, f1) →
  conditioning ext (probe_path this_probe) f1 = (Ok tt, f2) →
  run_sorter ext (output_folder this_probe) f2 = (Raise err, f3) →
  ¬ has_dir (output_folder this_probe) f3 →
  ∃ (err' : exn) (s' : state),
    run (probe_loop i (this_probe :: rest)) s = (Raise err', s') ∧
    calls s' = calls s ++ take 3 (calls_of this_probe) ∧
    probe_done s' = probe_done s.
Proof.
  intros Half E1 E2 E3 Hout.
  assert (isdir (output_folder this_probe) f3 = false) as Hout'.
  { apply not_true_is_false. by rewrite <- has_dir_isdir. }
  rewrite PyFacts.run_for_cons.
  unfold process_probe, Orchestrator.process_probe. simpl. rewrite Half. simpl.
  rewrite E1. simpl. rewrite E2. simpl. rewrite E3. simpl.
  destruct (write_text (error_log this_probe) (str err) f3) as [[[]|e4] f4] eqn:E4; simpl.
  - assert (isdir (output_folder this_probe) f4 = false) as Hout4.
    { unfold write_text in E4.
      destruct (isdir (error_log this_probe) f3); [done|].
      destruct (isdir (dirname _) f3); by simplify_eq. }
    unfold rmtree. rewrite Hout4.
    destruct (isfile (output_folder this_probe) f4); simpl;
      eexists _, _; (split_and!; [done| |done]); simpl; by rewrite <- !app_assoc.
  - eexists _, _. split_and!; [done| |done]. simpl. by rewrite <- !app_assoc.
Qed.

(** X12: a session in which [glob] finds no probe folder makes no call and
    removes its marker at once ([np.sum] of no entries is the number of
    probes); without a marker on disk it ends in [FileNotFoundError]. *)
Theorem session_without_probes (f : fs) :
  session [] f
  = if isfile marker f
    then (Ok tt, State (FS (dirs f) (delete marker (files f))) [] [] [])
    else (Raise (FileNotFoundError marker), State f [] [] []).
Proof.
  rewrite session_unfold.
  change (run (probe_loop 0 []) ?s) with (Ok tt, s). cbv beta iota.
  rewrite run_clear_marker. simpl. unfold os_remove. by destruct (isfile marker f).
Qed.

Lemma loop_calls (probes : list string) (i : nat) (s s' : state) (r : result unit) :
  run (probe_loop i probes) s = (r, s') →
  ∃ news : list (list call),
    calls s' = calls s ++ concat news ∧
    Forall2 (λ p new, new `prefix_of` calls_of p) (take (length news) probes) news ∧
    (r = Ok tt → length news = length probes).
Proof.
  revert i s. induction probes as [|p probes IH]; intros i s Hrun.
  - injection Hrun as <- <-. exists []. simpl. by rewrite app_nil_r.
  - rewrite PyFacts.run_for_cons in Hrun.
    destruct (run (process_probe i p) s) as [r1 s1] eqn:Hit.
    apply process_probe_summary in Hit as (st & new & _ & _ & Hcalls & Hnew & _).
    destruct r1 as [[]|e].
    + destruct (IH _ _ Hrun) as (news & Hcalls' & Hall & Hlen).
      exists (new :: news). simpl. split_and!.
      * by rewrite Hcalls', Hcalls, <- app_assoc.
      * by constructor.
      * intros Hr. by rewrite Hlen.
    + injection Hrun as <- <-. exists [new]. simpl. rewrite app_nil_r. split_and!.
      * done.
      * by repeat constructor.
      * discriminate.
Qed.

(** X13: the calls of a session are made probe by probe, in the order of
    the probes; those for one probe are an initial part of: synchronisation,
    conditioning, sorter, preparation of the export, export, each at most
    once; a session that ends normally has such a part for every probe. *)
Theorem calls_follow_probe_order (probes : list string) (f : fs) :
  ∃ news : list (list call),
    calls (session probes f).2 = concat news ∧
    Forall2 (λ p new, new `prefix_of` calls_of p) (take (length news) probes) news ∧
    ((session probes f).1 = Ok tt → length news = length probes).
Proof.
  rewrite session_unfold.
  destruct (run (probe_loop 0 probes) _) as [r0 s'] eqn:Hloop.
  destruct (loop_calls _ _ _ _ _ Hloop) as (news & Hcalls & Hall & Hlen).
  simpl in Hcalls. exists news.
  destruct r0 as [[]|e]; cbv beta iota.
  - destruct (run (clear_marker probes) s') as [r1 s1] eqn:Hclear.
    apply clear_marker_fields in Hclear as (_ & _ & Hsame). simpl. rewrite Hsame.
    split_and!; [done..|]. intros _. by apply Hlen.
  - simpl. split_and!; [done..|discriminate].
Qed.

(** X14: the handler of a failed sorter (lines 226-238).  It never touches
    [probe_done] and calls no collaborator; it ends normally exactly when
    the folder of the probe exists, the output folder of the sorter exists,
    and no directory is in the place of the error log.  Then the log holds
    the text of the exception, everything under the output folder is gone,
    and the rest of the disk is as it was. *)
Theorem sorter_failed_outcome (i : nat) (this_probe : string) (err : exn) (s : state) :
  let out := run (sorter_failed SPIKE_SORTER IDENTIFIER root i this_probe err) s in
  probe_done out.2 = probe_done s ∧
  calls out.2 = calls s ∧
  probe_states out.2 = <[i := sorting_failed]> (probe_states s) ∧
  (out.1 = Ok false ↔
     has_dir (probe_path this_probe) (disk s) ∧
     ¬ has_dir (error_log this_probe) (disk s) ∧
     has_dir (output_folder this_probe) (disk s)) ∧
  (out.1 = Ok false →
     files (disk out.2) !! error_log this_probe = Some (str err) ∧
     ∀ q : path,
       (has_dir q (disk out.2) ↔
          has_dir q (disk s) ∧ ¬ output_folder this_probe `prefix_of` q) ∧
       (q ≠ error_log this_probe →
        files (disk out.2) !! q
        = if decide (output_folder this_probe `prefix_of` q) then None
          else files (disk s) !! q)).
Proof.
  unfold sorter_failed. simpl.
  unfold write_text. rewrite dirname_error_log.
  destruct (isdir (error_log this_probe) (disk s)) eqn:Hlog; simpl.
  { split_and!; [done..| |done]. split; [done|].
    intros (_ & Hno & _). by apply has_dir_isdir in Hlog. }
  destruct (isdir (probe_path this_probe) (disk s)) eqn:Hprobe; simpl.
  2:{ split_and!; [done..| |done]. split; [done|].
      intros (Hp & _). apply has_dir_isdir in Hp. congruence. }
  unfold rmtree. simpl.
  change (isdir ?d (FS (dirs (disk s)) ?fl)) with (isdir d (disk s)).
  destruct (isdir (output_folder this_probe) (disk s)) eqn:Hout; simpl.
  2:{ destruct (isfile _ _); simpl; (split_and!; [done..| |done]); (split; [done|]);
        intros (_ & _ & Ho); apply has_dir_isdir in Ho; congruence. }
  assert (¬ output_folder this_probe `prefix_of` error_log this_probe) as Hnot.
  { intros Hpre.
    assert (output_folder this_probe = error_log this_probe) as Heq.
    { apply prefix_length_eq; [done|].
      unfold output_folder, Orchestrator.output_folder, error_log, Orchestrator.error_log.
      rewrite !length_app. simpl. lia. }
    rewrite Heq in Hout. congruence. }
  split_and!; [done..| |].
  - split; [|done]. intros _. split_and!.
    + by apply has_dir_isdir.
    + rewrite has_dir_isdir. congruence.
    + by apply has_dir_isdir.
  - intros _. split.
    + apply map_lookup_filter_Some. split; [by rewrite lookup_insert_eq|done].
    + intros q. split.
      * unfold has_dir. simpl. by rewrite elem_of_filter, (comm and).
      * intros Hq. case_decide as Hunder.
        -- apply map_lookup_filter_None. right. intros text _. simpl. by intros Hno.
        -- rewrite map_lookup_filter, lookup_insert_ne by done.
           destruct (files (disk s) !! q) as [text|] eqn:Hfile; simpl; [|done].
           by rewrite option_guard_True.
Qed.

Lemma loop_raise_not_all_done (probes : list string) (f : fs) (err : exn) (s' : state) :
  run (probe_loop 0 probes)
      (State f (replicate (length probes) false) (replicate (length probes) not_started) [])
  = (Raise err, s') →
  Numpy.sum_bool (probe_done s') ≠ length probes.
Proof.
  intros Hloop Hall.
  destruct (loop_untouched _ _ _ _ _ Hloop) as (Hld & _ & _).
  simpl in Hld. rewrite length_replicate in Hld.
  destruct (loop_invariant _ _ _ _ _ Hloop) as [Hcons (j & st & Hj & Hst & Hne)].
  { intros j Hj. lia. }
  { intros j Hj. apply initial_pending. lia. }
  rewrite <- Hld in Hall. apply NumpyFacts.sum_bool_all in Hall.
  destruct (Hcons j Hj) as (b & st' & Hb & Hst' & Hiff).
  rewrite Forall_lookup in Hall. apply Hall in Hb. apply Hne. apply Hiff in Hb. congruence.
Qed.

(** X15: whatever the collaborators do to the disk, a session that leaves
    every entry of [probe_done] set has run its loop to the end and leaves
    no marker: it ends normally, or the marker was gone already and
    [os.remove] ends the session in [FileNotFoundError]. *)
Theorem all_done_session_leaves_no_marker (probes : list string) (f : fs)
    (r : result unit) (s1 : state) :
  session probes f = (r, s1) →
  Numpy.sum_bool (probe_done s1) = length probes →
  ¬ has_file marker (disk s1) ∧ (r = Ok tt ∨ r = Raise (FileNotFoundError marker)).
Proof.
  rewrite session_unfold.
  destruct (run (probe_loop 0 probes) _) as [[[]|e] s'] eqn:Hloop.
  - rewrite run_clear_marker. case_decide as Hall.
    + unfold os_remove. destruct (isfile marker (disk s')) eqn:Hfile; intros [= <- <-] _.
      * split; [|by left]. unfold has_file. simpl. rewrite dom_delete_L.
        intros [_ Hm]%elem_of_difference. by apply Hm, elem_of_singleton.
      * split; [|by right]. unfold has_file. simpl. intros Hm.
        unfold isfile in Hfile. by rewrite bool_decide_eq_true_2 in Hfile.
    + by intros [= <- <-] Hall'.
  - intros [= <- <-] Hall. by apply loop_raise_not_all_done in Hloop.
Qed.

(** One iteration and the export directory of its probe: it is there at the
    end, or the iteration has not reached the exporter and has not set
    [probe_done]. *)
Lemma process_probe_export_dir (i : nat) (this_probe : string) (s s' : state)
    (r : result unit) :
  keeps (has_dir (alf_path this_probe)) (export_alf ext (alf_path this_probe)) →
  run (process_probe i this_probe) s = (r, s') →
  has_dir (alf_path this_probe) (disk s') ∨
  (probe_done s' = probe_done s ∧
   ∃ new : list call, calls s' = calls s ++ new ∧ new `prefix_of` take 4 (calls_of this_probe)).
Proof.
  intros Hkeep.
  destruct (isdir (alf_path this_probe) (disk s)) eqn:Half.
  { rewrite process_probe_skip by done. intros [= <- <-]. left. by apply has_dir_isdir. }
  unfold process_probe, Orchestrator.process_probe. simpl. rewrite Half. simpl.
  destruct (sync_pulses ext this_probe (disk s)) as [[[]|e1] f1] eqn:E1; simpl.
  2:{ intros [= <- <-]. right. split; [done|]. simpl.
      exists [SyncPulses this_probe]. split; [done|]. by eexists. }
  destruct (conditioning ext (probe_path this_probe) f1) as [[[]|e2] f2] eqn:E2; simpl.
  2:{ intros [= <- <-]. right. split; [done|]. simpl. rewrite <- !app_assoc.
      eexists. split; [done|]. by eexists. }
  destruct (run_sorter ext (output_folder this_probe) f2) as [[[]|e3] f3] eqn:E3; simpl.
  2:{ destruct (write_text (error_log this_probe) (str e3) f3) as [[[]|e4] f4] eqn:E4; simpl.
      2:{ intros [= <- <-]. right. split; [done|]. simpl. rewrite <- !app_assoc.
          eexists. split; [done|]. by eexists. }
      destruct (rmtree (output_folder this_probe) f4) as [[[]|e5] f5] eqn:E5; simpl.
      all: intros [= <- <-]; right; (split; [done|]); simpl; rewrite <- !app_assoc;
        eexists; (split; [done|]); by eexists. }
  destruct (prepare_export ext (probe_path this_probe) f3) as [[[]|e4] f4] eqn:E4; simpl.
  2:{ intros [= <- <-]. right. split; [done|]. simpl. rewrite <- !app_assoc.
      eexists. split; [done|]. by eexists. }
  destruct (isdir (alf_path this_probe) f4) eqn:Half4; simpl.
  - apply has_dir_isdir in Half4.
    destruct (export_alf ext (alf_path this_probe) f4) as [[[]|e5] f5] eqn:E5; simpl.
    all: intros [= <- <-]; left; simpl; by apply (keeps_step _ _ _ _ _ Hkeep E5).
  - destruct (os_mkdir (alf_path this_probe) f4) as [[[]|e5] f5] eqn:E5; simpl.
    2:{ intros [= <- <-]. right. split; [done|]. simpl. rewrite <- !app_assoc.
        eexists. split; [done|]. by eexists. }
    assert (has_dir (alf_path this_probe) f5) as Hmade.
    { unfold os_mkdir in E5. destruct (isdir _ f4 || isfile _ f4); [done|].
      destruct (isdir (dirname _) f4); [|done]. injection E5 as <-.
      unfold has_dir. simpl. apply elem_of_union. left. by apply elem_of_singleton. }
    destruct (export_alf ext (alf_path this_probe) f5) as [[[]|e6] f6] eqn:E6; simpl.
    all: intros [= <- <-]; left; simpl; by apply (keeps_step _ _ _ _ _ Hkeep E6).
Qed.

(** X16: the export directory is made before the exporter runs (lines
    277-279), and it is what the loop looks at to tell a processed probe
    (line 103).  An iteration that raised after it reached the exporter has
    left [probe_done] alone; yet on the disk it leaves, an iteration on the
    same probe makes no call and sets [probe_done]. *)
Theorem export_failure_is_taken_for_done (i : nat) (this_probe : string) (s s1 : state)
    (err : exn) :
  keeps (has_dir (alf_path this_probe)) (export_alf ext (alf_path this_probe)) →
  run (process_probe i this_probe) s = (Raise err, s1) →
  ExportAlf (alf_path this_probe) ∉ calls s →
  ExportAlf (alf_path this_probe) ∈ calls s1 →
  probe_done s1 = probe_done s ∧
  ∀ (i' : nat) (s2 : state), disk s2 = disk s1 →
    run (process_probe i' this_probe) s2
    = (Ok tt, State (disk s2) (<[i' := true]> (probe_done s2))
                (<[i' := done]> (probe_states s2)) (calls s2)).
Proof.
  intros Hkeep Hrun Hbefore Hafter. split.
  - apply process_probe_summary in Hrun as (st & new & _ & -> & _ & _ & Hst & _).
    by rewrite decide_False.
  - destruct (process_probe_export_dir _ _ _ _ _ Hkeep Hrun)
      as [Hdir|(_ & new & Hcalls & [k Hnew])].
    + intros i' s2 Hdisk. apply process_probe_skip. rewrite Hdisk. by apply has_dir_isdir.
    + exfalso. rewrite Hcalls in Hafter. apply elem_of_app in Hafter as [?|Hin]; [done|].
      assert (ExportAlf (alf_path this_probe) ∈ take 4 (calls_of this_probe)) as Hin4.
      { rewrite Hnew. apply elem_of_app. by left. }
      simpl in Hin4. rewrite !elem_of_cons, elem_of_nil in Hin4.
      by destruct Hin4 as [?|[?|[?|[?|[]]]]].
Qed.

(** An entry of [probe_done] that the loop sets stands for an export
    directory on disk. *)
Lemma loop_done_dir (q : string) (probes : list string) (i k : nat) (s s' : state)
    (r : result unit) :
  respected ext (has_dir (alf_path q)) →
  probes !! k = Some q →
  run (probe_loop i probes) s = (r, s') →
  probe_done s !! (i + k)%nat = Some false → probe_done s' !! (i + k)%nat = Some true →
  has_dir (alf_path q) (disk s').
Proof.
  intros Hext. revert i k s.
  induction probes as [|p probes IH]; intros i k s Hk Hrun Hnot Hset; [done|].
  rewrite PyFacts.run_for_cons in Hrun.
  destruct (run (process_probe i p) s) as [r1 s1] eqn:Hit.
  destruct k as [|k]; simpl in Hk.
  - injection Hk as ->. rewrite Nat.add_0_r in *.
    assert (probe_done s' !! i = probe_done s1 !! i) as Hsame.
    { destruct r1 as [[]|e]; [|by injection Hrun as <- <-].
      apply loop_untouched in Hrun as (_ & _ & Hun). by destruct (Hun i ltac:(lia)). }
    assert (has_dir (alf_path q) (disk s1)) as Hdir.
    { destruct (process_probe_export_dir i q s s1 r1) as [?|[Hdone _]]; [apply Hext|done|done|].
      rewrite Hsame, Hdone in Hset. congruence. }
    destruct r1 as [[]|e]; [|by injection Hrun as <- <-].
    eapply loop_frame; [done|apply alf_kept_locally|done|done].
  - destruct r1 as [[]|e].
    + replace (i + S k)%nat with (S i + k)%nat in * by lia.
      apply (IH (S i) k s1); [done|done| |done].
      apply process_probe_summary in Hit as (st & new & _ & -> & _).
      case_decide; [|done]. by rewrite list_lookup_insert_ne by lia.
    + injection Hrun as <- <-. exfalso.
      apply process_probe_summary in Hit as (st & new & _ & Hdone & _ & _ & Hst & _).
      rewrite Hdone, decide_False in Hset by done. congruence.
Qed.

(** X17: a session run again on the disk an earlier run left.  A probe that
    the earlier run counted as done has its export directory on that disk,
    so the later run makes no call for it and, if its loop comes to the end,
    counts it as done again. *)
Theorem done_probes_are_skipped_by_the_next_run (probes : list string) (f : fs)
    (r r' : result unit) (s1 s2 : state) (k : nat) (q : string) :
  probes !! k = Some q →
  respected ext (has_dir (alf_path q)) →
  session probes f = (r, s1) →
  probe_done s1 !! k = Some true →
  session probes (disk s1) = (r', s2) →
  has_dir (alf_path q) (disk s1) ∧
  (∀ c : call, c ∈ calls_of q → c ∉ calls s2) ∧
  (r' = Ok tt → probe_done s2 !! k = Some true).
Proof.
  intros Hk Hext Hfirst Hdone Hsecond.
  assert (k < length probes)%nat as Hlt by (by eapply lookup_lt_Some).
  assert (has_dir (alf_path q) (disk s1)) as Hdir.
  { rewrite session_unfold in Hfirst.
    destruct (run (probe_loop 0 probes) _) as [r0 s'] eqn:Hloop.
    assert (has_dir (alf_path q) (disk s')) as Hdir'.
    { apply (loop_done_dir q probes 0 k _ s' r0 Hext Hk Hloop).
      - simpl. by apply lookup_replicate_2.
      - destruct r0 as [[]|e]; [|by injection Hfirst as <- <-].
        by apply clear_marker_fields in Hfirst as (<- & _). }
    destruct r0 as [[]|e]; [|by injection Hfirst as <- <-].
    rewrite run_clear_marker in Hfirst. case_decide; [|by injection Hfirst as <- <-].
    unfold os_remove in Hfirst.
    destruct (isfile marker (disk s')); by injection Hfirst as <- <-. }
  split; [done|].
  rewrite session_unfold in Hsecond.
  destruct (run (probe_loop 0 probes) _) as [r0 s'] eqn:Hloop.
  split.
  - intros c Hc Hin.
    assert (calls s2 = calls s') as Hcalls.
    { destruct r0 as [[]|e]; [|by injection Hsecond as <- <-].
      by apply clear_marker_fields in Hsecond as (_ & _ & ?). }
    rewrite Hcalls in Hin.
    assert (c ∈ @nil call) as Hnil.
    { by eapply (loop_no_calls q probes 0
                   (State (disk s1) (replicate (length probes) false)
                          (replicate (length probes) not_started) []) s' r0 c). }
    by apply elem_of_nil in Hnil.
  - intros ->. destruct r0 as [[]|e]; [|done].
    apply clear_marker_fields in Hsecond as (-> & _).
    apply (loop_skips q probes 0 k
             (State (disk s1) (replicate (length probes) false)
                    (replicate (length probes) not_started) []) s' Hk Hext Hdir);
      simpl; rewrite ?length_replicate; done.
Qed.

(** X18: only the sorter runs under [try]: an exception of the
    conditioning (lines 121-214) ends the loop at that probe.  Nothing is
    written by the script, [probe_done] is as it was, and no call is made
    for the probes that follow. *)
Theorem conditioning_error_ends_the_loop (i : nat) (this_probe : string)
    (rest : list string) (s : state) (f1 f2 : fs) (err : exn) :
  isdir (alf_path this_probe) (disk s) = false →
  sync_pulses ext this_probe (disk s) = (Ok tt, f1) →
  conditioning ext (probe_path this_probe) f1 = (Raise err, f2) →
  run (probe_loop i (this_probe :: rest)) s
  = (Raise err,
     State f2 (probe_done s) (<[i := synced]> (probe_states s))
       (calls s ++ [SyncPulses this_probe; Conditioning (probe_path this_probe)])).
Proof.
  intros Half E1 E2. rewrite PyFacts.run_for_cons.
  unfold process_probe, Orchestrator.process_probe. simpl. rewrite Half. simpl.
  rewrite E1. simpl. rewrite E2. simpl. by rewrite <- !app_assoc.
Qed.

(** The loop keeps what the iterations on its probes keep. *)
Lemma loop_frame_in (P : fs → Prop) (probes : list string) (i : nat) (s s' : state)
    (r : result unit) :
  respected ext P → (∀ p, p ∈ probes → kept_locally P p) →
  run (probe_loop i probes) s = (r, s') → P (disk s) → P (disk s').
Proof.
  intros Hext. revert i s. induction probes as [|p probes IH]; intros i s Hloc Hrun HP.
  - by injection Hrun as <- <-.
  - rewrite PyFacts.run_for_cons in Hrun.
    destruct (run (process_probe i p) s) as [r1 s1] eqn:Hit.
    apply process_probe_summary in Hit as (st & new & _ & _ & _ & _ & _ & _ & Hframe).
    assert (P (disk s1)) as HP1.
    { apply Hframe; [done| |done]. apply Hloc. apply elem_of_cons. by left. }
    destruct r1 as [[]|e]; [|by injection Hrun as <- <-].
    eapply IH; [|done|done]. intros p' Hp'. apply Hloc. apply elem_of_cons. by right.
Qed.

Lemma dir_kept_locally (q : path) (this_probe : string) :
  ¬ output_folder this_probe `prefix_of` q → kept_locally (has_dir q) this_probe.
Proof.
  intros Hq. unfold kept_locally, keeps, has_dir. split_and!.
  - intros text f Hf. unfold write_text.
    destruct (isdir (error_log this_probe) f); simpl; [done|]. by destruct (isdir _ f).
  - intros f Hf. unfold rmtree. destruct (isdir _ f); simpl.
    + by apply elem_of_filter.
    + by destruct (isfile _ f).
  - intros f Hf. unfold os_mkdir. destruct (isdir _ f || isfile _ f); simpl; [done|].
    destruct (isdir _ f); simpl; [|done]. set_solver.
Qed.

Lemma file_kept_locally (q : path) (this_probe : string) :
  ¬ output_folder this_probe `prefix_of` q → kept_locally (has_file q) this_probe.
Proof.
  intros Hq. unfold kept_locally, keeps, has_file. split_and!.
  - intros text f Hf. unfold write_text.
    destruct (isdir (error_log this_probe) f); simpl; [done|].
    destruct (isdir _ f); simpl; [|done].
    rewrite dom_insert_L. set_solver.
  - intros f Hf. unfold rmtree. destruct (isdir _ f); simpl.
    + apply elem_of_dom in Hf as [text Hf]. apply elem_of_dom. exists text.
      by apply map_lookup_filter_Some.
    + by destruct (isfile _ f).
  - intros f Hf. unfold os_mkdir. destruct (isdir _ f || isfile _ f); simpl; [done|].
    by destruct (isdir _ f).
Qed.

(** X19: what the script itself removes.  A directory or a file that is
    not under the sorter's output folder of one of the probes, and that the
    collaborators leave in place, is still there when the session ends;
    for a file, the marker apart. *)
Theorem session_removes_only_sorter_output (probes : list string) (f : fs)
    (r : result unit) (s1 : state) (q : path) :
  (∀ p : string, p ∈ probes → ¬ output_folder p `prefix_of` q) →
  session probes f = (r, s1) →
  (respected ext (has_dir q) → has_dir q f → has_dir q (disk s1)) ∧
  (respected ext (has_file q) → q ≠ marker → has_file q f → has_file q (disk s1)).
Proof.
  intros Hq. rewrite session_unfold.
  destruct (run (probe_loop 0 probes) _) as [r0 s'] eqn:Hloop. intros Hses. split.
  - intros Hext Hdir.
    assert (has_dir q (disk s')) as Hdir'.
    { eapply loop_frame_in; [done| |done|done].
      intros p Hp. by apply dir_kept_locally, Hq. }
    destruct r0 as [[]|e]; [|by injection Hses as <- <-].
    rewrite run_clear_marker in Hses. case_decide; [|by injection Hses as <- <-].
    unfold os_remove in Hses. destruct (isfile marker (disk s')); by injection Hses as <- <-.
  - intros Hext Hne Hfile.
    assert (has_file q (disk s')) as Hfile'.
    { eapply loop_frame_in; [done| |done|done].
      intros p Hp. by apply file_kept_locally, Hq. }
    destruct r0 as [[]|e]; [|by injection Hses as <- <-].
    rewrite run_clear_marker in Hses. case_decide; [|by injection Hses as <- <-].
    unfold os_remove in Hses.
    destruct (isfile marker (disk s')); injection Hses as <- <-; [|done].
    unfold has_file in *. simpl. rewrite dom_delete_L. apply elem_of_difference.
    split; [done|]. by intros ?%elem_of_singleton.
Qed.

End Session.

(** The collaborators of the examples only add to the disk. *)
Lemma well_behaved_keeps_files (p : path) : respected well_behaved (has_file p).
Proof. by split_and!; intros x f Hf. Qed.

Lemma well_behaved_keeps_dirs (d : path) : respected well_behaved (has_dir d).
Proof.
  split_and!; intros x f Hf; try done.
  unfold has_dir. simpl. apply elem_of_union. by right.
Qed.

Lemma pair_eta {A B : Type} (x : A * B) : x = (x.1, x.2).
Proof. by destruct x. Qed.

Lemma has_file_lookup (p : path) (f : fs) (text : string) :
  files f !! p = Some text → has_file p f.
Proof. intros H. apply elem_of_dom. by exists text. Qed.

Lemma has_dir_decide (d : path) (f : fs) : isdir d f = true → has_dir d f.
Proof. apply has_dir_isdir. Qed.

Lemma failing_late_keeps_files (p : path) : respected failing_late (has_file p).
Proof. by split_and!; intros x f Hf. Qed.

Lemma marker_cleared_iff_all_done_witness :
  has_file (marker session_root) resumed_disk ∧
  respected well_behaved (has_file (marker session_root)) ∧
  respected failing_late (has_file (marker session_root)) ∧
  probe_done resumed_session.2 = [true; true] ∧
  (¬ has_file (marker session_root) (disk resumed_session.2) ↔
     Forall (λ st, st = done) (probe_states resumed_session.2)) ∧
  RunSorter (output_folder SORTER RUN_ID session_root "probe01") ∈ calls retried_session.2 ∧
  probe_done retried_session.2 !! 1%nat = Some false ∧
  probe_states retried_session.2 !! 1%nat = Some sorting_failed ∧
  has_file (marker session_root) (disk retried_session.2).
Proof.
  assert (has_file (marker session_root) resumed_disk) as Hmark
    by (apply (has_file_lookup _ _ EmptyString); by vm_compute).
  assert (RunSorter (output_folder SORTER RUN_ID session_root "probe01")
            ∈ calls retried_session.2) as Hcalled
    by (apply (bool_decide_unpack _); by vm_compute).
  assert (NoDup ["probe00"; "probe01"]) as Hnd
    by (apply (bool_decide_unpack _); by vm_compute).
  destruct (marker_cleared_iff_all_done SORTER RUN_ID failing_late session_root
              ["probe00"; "probe01"] resumed_disk retried_session.1 retried_session.2
              Hmark (failing_late_keeps_files _) (pair_eta retried_session))
    as (_ & _ & _ & _ & _ & _ & Hfailed).
  destruct (Hfailed 1%nat "probe01" Hnd eq_refl (λ f' H, ltac:(discriminate H)) Hcalled)
    as (Hnot & Hstate & Hkept).
  split_and!; [done|apply well_behaved_keeps_files|apply failing_late_keeps_files
              |by vm_compute| |done..].
  exact (proj1 (marker_cleared_iff_all_done SORTER RUN_ID well_behaved session_root
                  ["probe00"; "probe01"] resumed_disk resumed_session.1 resumed_session.2
                  Hmark (well_behaved_keeps_files _) (pair_eta resumed_session))).
Defined.

(** The marker rule as specified fails on the session of section 8: with
    [probe00] exported before and the sorter failing on [probe01], both
    probes end in a terminal state and the marker is still there. *)
Lemma marker_rule_counterexample :
  probe_states retried_session.2 = [done; sorting_failed] ∧
  retried_session.1 = Ok tt ∧
  ¬ marker_rule_as_specified session_root retried_session.2.
Proof.
  assert (probe_states retried_session.2 = [done; sorting_failed]) as Hstates
    by (by vm_compute).
  split_and!; [done|by vm_compute|]. intros [_ Hgone]. apply Hgone.
  - rewrite Hstates.
    apply Forall_cons; split; [by left|]. apply Forall_cons; split; [by right|]. constructor.
  - apply (has_file_lookup _ _ EmptyString). by vm_compute.
Qed.

(** C2: on the fresh session, a sorter that raises before creating its
    output folder leaves the error log of [probe00] written, and then
    [shutil.rmtree] raises in the handler: the session ends with that
    exception, [probe01] is never started, and the marker stays. *)
Theorem sorter_failure_without_folder_aborts :
  aborted_session.1
    = Raise (FileNotFoundError (output_folder SORTER RUN_ID session_root "probe00")) ∧
  files (disk aborted_session.2) !! error_log session_root "probe00"
    = Some "The sorter kilosort2_5 is not installed." ∧
  isdir (output_folder SORTER RUN_ID session_root "probe00") (disk aborted_session.2) = false ∧
  probe_states aborted_session.2 = [sorting_failed; not_started] ∧
  calls aborted_session.2 = take 3 (calls_of SORTER RUN_ID session_root "probe00") ∧
  has_file (marker session_root) (disk aborted_session.2).
Proof.
  split_and!; [by vm_compute..|]. apply (has_file_lookup _ _ EmptyString). by vm_compute.
Qed.

(** With the folder left behind, the same failure is contained: the loop
    reaches [probe01], and only the marker records the failure. *)
Lemma sorter_failure_with_folder_continues :
  failed_session.1 = Ok tt ∧
  probe_states failed_session.2 = [sorting_failed; done] ∧
  files (disk failed_session.2) !! error_log session_root "probe00"
    = Some "Spike sorting error trace" ∧
  isdir (output_folder SORTER RUN_ID session_root "probe00") (disk failed_session.2) = false ∧
  has_file (marker session_root) (disk failed_session.2).
Proof.
  split_and!; [by vm_compute..|]. apply (has_file_lookup _ _ EmptyString). by vm_compute.
Qed.

Lemma resume_skips_done_probes_witness :
  has_file (marker session_root) resumed_disk ∧
  respected well_behaved (has_file (marker session_root)) ∧
  has_dir (alf_path RUN_ID session_root "probe00") resumed_disk ∧
  (SyncPulses "probe00" ∉ calls resumed_session.2) ∧
  (Conditioning (probe_path session_root "probe00") ∉ calls resumed_session.2) ∧
  (RunSorter (output_folder SORTER RUN_ID session_root "probe00") ∉ calls resumed_session.2) ∧
  probe_done resumed_session.2 !! 0%nat = Some true.
Proof.
  assert (has_file (marker session_root) resumed_disk) as Hmark
    by (apply (has_file_lookup _ _ EmptyString); by vm_compute).
  assert (has_dir (alf_path RUN_ID session_root "probe00") resumed_disk) as Hdir
    by (apply has_dir_decide; by vm_compute).
  destruct (resume_skips_done_probes SORTER RUN_ID well_behaved session_root
              ["probe00"; "probe01"] resumed_disk resumed_session.1 resumed_session.2
              Hmark (well_behaved_keeps_files _)
              (λ q _ _, well_behaved_keeps_dirs _) (pair_eta resumed_session))
    as (Hcalls & Hdone & _).
  assert ("probe00" ∈ ["probe00"; "probe01"]) as Hin by (apply elem_of_cons; by left).
  split_and!; [done|apply well_behaved_keeps_files|done|..].
  - apply (Hcalls "probe00" _ Hin Hdir). apply elem_of_cons. by left.
  - apply (Hcalls "probe00" _ Hin Hdir). do 1 apply list_elem_of_further. apply elem_of_cons. by left.
  - apply (Hcalls "probe00" _ Hin Hdir). do 2 apply list_elem_of_further. apply elem_of_cons. by left.
  - apply (Hdone 0%nat "probe00" eq_refl Hdir). by vm_compute.
Defined.

Lemma id_str_nonempty (c : ascii) (r : string) :
  id_str (String c r) = "_" +:+ String c r.
Proof. unfold id_str. rewrite decide_True; [done|]. simpl. lia. Qed.

Lemma id_str_empty : id_str EmptyString = EmptyString.
Proof. unfold id_str. rewrite decide_False; [done|]. simpl. lia. Qed.

Lemma id_str_inj (ID1 ID2 : string) : id_str ID1 = id_str ID2 → ID1 = ID2.
Proof.
  destruct ID1 as [|c1 r1], ID2 as [|c2 r2];
    rewrite ?id_str_nonempty, ?id_str_empty; simpl; intros H.
  - reflexivity.
  - discriminate H.
  - discriminate H.
  - by injection H as -> ->.
Qed.

(** X20: the identifier of a run (lines 39-42) is part of the name of the
    export directory and of the sorter's output folder of a probe, and two
    identifiers never give the same name: a run under another identifier
    finds no probe processed by this one. *)
Theorem identifier_separates_runs (SPIKE_SORTER ID1 ID2 : string) (root : path)
    (this_probe : string) :
  (alf_path ID1 root this_probe = alf_path ID2 root this_probe ↔ ID1 = ID2) ∧
  (output_folder SPIKE_SORTER ID1 root this_probe
   = output_folder SPIKE_SORTER ID2 root this_probe ↔ ID1 = ID2).
Proof.
  split; (split; [|by intros ->]).
  - unfold alf_path. intros H%app_inv_head. injection H as H.
    by apply PyFacts.append_prefix_inj, id_str_inj in H.
  - unfold output_folder. intros H%app_inv_head. injection H as H.
    by apply PyFacts.append_prefix_inj, id_str_inj in H.
Qed.

Lemma failing_on_probe00_keeps_dirs (d : path) : respected failing_on_probe00 (has_dir d).
Proof.
  split_and!; intros x f Hf; try done.
  unfold has_dir. simpl. case_decide; simpl; apply elem_of_union; by right.
Qed.

Lemma all_done_session_leaves_no_marker_witness :
  Numpy.sum_bool (probe_done resumed_session.2) = 2%nat ∧
  resumed_session.1 = Ok tt ∧
  ¬ has_file (marker session_root) (disk resumed_session.2).
Proof.
  assert (Numpy.sum_bool (probe_done resumed_session.2) = 2%nat) as Hall by (by vm_compute).
  split_and!; [done|by vm_compute|].
  exact (proj1 (all_done_session_leaves_no_marker SORTER RUN_ID well_behaved session_root
                  ["probe00"; "probe01"] resumed_disk resumed_session.1 resumed_session.2
                  (pair_eta resumed_session) Hall)).
Defined.

Lemma export_failure_is_taken_for_done_witness :
  unexported_probe00.1 = Raise (Raised "FileNotFoundError" "spike_sorting_KS2.log") ∧
  probe_done unexported_probe00.2 = [false; false] ∧
  run (process_probe SORTER RUN_ID failing_export session_root 0 "probe00")
      (entered (disk unexported_probe00.2))
  = (Ok tt, State (disk unexported_probe00.2) [true; false] [done; not_started] []).
Proof.
  assert (unexported_probe00.1 = Raise (Raised "FileNotFoundError" "spike_sorting_KS2.log"))
    as Hraised by (by vm_compute).
  assert (run (process_probe SORTER RUN_ID failing_export session_root 0 "probe00")
              (entered fresh_disk)
          = (Raise (Raised "FileNotFoundError" "spike_sorting_KS2.log"), unexported_probe00.2))
    as Hrun by (rewrite <- Hraised; exact (pair_eta unexported_probe00)).
  assert (ExportAlf (alf_path RUN_ID session_root "probe00") ∈ calls unexported_probe00.2)
    as Hreached by (apply (bool_decide_unpack _); by vm_compute).
  destruct (export_failure_is_taken_for_done SORTER RUN_ID failing_export session_root
              0 "probe00" (entered fresh_disk) unexported_probe00.2 _
              (λ f Hf, Hf) Hrun (not_elem_of_nil _) Hreached) as [Hdone Hnext].
  split_and!; [done|exact Hdone|].
  exact (Hnext 0%nat (entered (disk unexported_probe00.2)) eq_refl).
Defined.

Lemma done_probes_are_skipped_by_the_next_run_witness :
  probe_done failed_session.2 = [false; true] ∧
  has_dir (alf_path RUN_ID session_root "probe01") (disk failed_session.2) ∧
  (RunSorter (output_folder SORTER RUN_ID session_root "probe01") ∉ calls second_session.2) ∧
  probe_done second_session.2 !! 1%nat = Some true.
Proof.
  assert (probe_done failed_session.2 = [false; true]) as Hdone by (by vm_compute).
  destruct (done_probes_are_skipped_by_the_next_run SORTER RUN_ID failing_on_probe00
              session_root ["probe00"; "probe01"] fresh_disk
              failed_session.1 second_session.1 failed_session.2 second_session.2
              1 "probe01" eq_refl (failing_on_probe00_keeps_dirs _)
              (pair_eta failed_session) (f_equal (.!! 1%nat) Hdone)
              (pair_eta second_session)) as (Hdir & Hcalls & Hagain).
  split_and!; [done|done| |].
  - apply Hcalls. do 2 apply list_elem_of_further. apply elem_of_cons. by left.
  - apply Hagain. by vm_compute.
Defined.

Lemma conditioning_error_ends_the_loop_witness :
  run (for_enumerate (process_probe SORTER RUN_ID unreadable_recording session_root) 0
         ["probe00"; "probe01"]) (entered fresh_disk)
  = (Raise (Raised "ValueError" "stream_id imec0.ap is not in ['imec1.ap']"),
     State fresh_disk [false; false] [synced; not_started]
       [SyncPulses "probe00"; Conditioning (probe_path session_root "probe00")]).
Proof.
  apply (conditioning_error_ends_the_loop SORTER RUN_ID unreadable_recording session_root
           0 "probe00" ["probe01"] (entered fresh_disk) fresh_disk fresh_disk).
  - by vm_compute.
  - reflexivity.
  - reflexivity.
Defined.

Lemma session_removes_only_sorter_output_witness :
  has_dir (probe_path session_root "probe00") fresh_disk ∧
  isdir (output_folder SORTER RUN_ID session_root "probe00") (disk failed_session.2) = false ∧
  has_dir (probe_path session_root "probe00") (disk failed_session.2).
Proof.
  assert (has_dir (probe_path session_root "probe00") fresh_disk) as Hdir
    by (apply has_dir_decide; by vm_compute).
  split_and!; [done|by vm_compute|].
  apply (proj1 (session_removes_only_sorter_output SORTER RUN_ID failing_on_probe00
                  session_root ["probe00"; "probe01"] fresh_disk
                  failed_session.1 failed_session.2 (probe_path session_root "probe00")
                  (λ p _ Hpre, Nat.lt_irrefl _ (prefix_length _ _ Hpre))
                  (pair_eta failed_session)));
    [apply failing_on_probe00_keeps_dirs|exact Hdir].
Defined.

End OrchestratorFacts.

(** ** Names and paths of a probe *)
Module LayoutFacts.
Import Py PyFacts Layout.

Lemma last_char_snoc (s : string) (c : ascii) :
  last_char (s +:+ String c EmptyString) = Ok c.
Proof.
  unfold last_char. rewrite list_ascii_of_append. simpl. by rewrite last_snoc.
Qed.


(** X22: the pointer to the raw data that is written to [params.py] is
    [bin_path / ap_file], where [ap_file] already starts with [bin_path]
    (lines 241-242, 270).  Under an absolute data folder the join drops its
    left side and the pointer is the file; under a relative one the folder
    of the probe comes twice, and the pointer is never the file. *)
Theorem dat_path_needs_absolute_root (root : pure_path) (this_probe name : string) :
  (anchored root = true → dat_path root this_probe name = ap_file root this_probe name) ∧
  (anchored root = false →
   dat_path root this_probe name
   = PurePath false (parts root ++ ["raw_ephys_data"; this_probe]
                     ++ parts root ++ ["raw_ephys_data"; this_probe; name])) ∧
  (dat_path root this_probe name = ap_file root this_probe name ↔ anchored root = true).
Proof.
  destruct root as [[] ps]; unfold dat_path, ap_file, bin_path, joinpath; simpl.
  - split_and!; [done|done|by split].
  - rewrite <- !app_assoc. simpl. split_and!; [done|done|]. split; [|done].
    intros [= H%(f_equal length)]. revert H.
    repeat (rewrite !length_app; simpl). lia.
Qed.

End LayoutFacts.
